(** * LiveBicepCounter: the repetition counter and its joint-angle computation

    A shallow embedding of [poseestimationmodule.py] (class [poseDetector])
    and of the main loop of [bicepApp.py].

    Numbers.  Pixel coordinates and landmark ids are Python [int]s and are
    modelled by [Z].  Angles, percentages, the repetition count and the
    clock are Python floats; they are modelled by the real numbers [R], so
    [math.atan2], [math.degrees] and [numpy.interp] stand for the
    mathematical functions they compute and rounding is not part of the
    model.  The count only ever holds multiples of one half, which binary
    floating point represents exactly.  Where rounding decides what the
    program returns, the arithmetic is stated on binary64 itself, in
    [Binary64]. *)

From Stdlib Require Import Reals Lra Lia ZArith List Bool String DecimalString.
From Stdlib Require Import Floats.
Import ListNotations.

Local Open Scope R_scope.

(** ** Python results: a value or a raised exception *)

Inductive PyExn : Type :=
| IndexError
| ZeroDivisionError.

Inductive pyres (A : Type) : Type :=
| Ret (a : A)
| Raise (e : PyExn).

Arguments Ret {A} a.
Arguments Raise {A} e.

Definition bind {A B : Type} (m : pyres A) (k : A -> pyres B) : pyres B :=
  match m with
  | Ret a => k a
  | Raise e => Raise e
  end.

Notation "x <- m ;; k" := (bind m (fun x => k))
  (at level 61, m at next level, right associativity).

(** The value a call returns, without the state it leaves behind. *)
Definition returned {A B : Type} (r : pyres (A * B)) : pyres A :=
  match r with
  | Ret (a, _) => Ret a
  | Raise e => Raise e
  end.

(** [l[i]] on a Python list: a negative index counts from the end, and an
    index outside [-len(l), len(l)) raises [IndexError]. *)
Definition py_getitem {A : Type} (l : list A) (i : Z) : pyres A :=
  let n := Z.of_nat (List.length l) in
  let j := if (i <? 0)%Z then (i + n)%Z else i in
  if ((0 <=? j) && (j <? n))%Z then
    match nth_error l (Z.to_nat j) with
    | Some a => Ret a
    | None => Raise IndexError
    end
  else Raise IndexError.

(** ** Float primitives, read over the reals *)

(** [x == y] on floats. *)
Definition Req_bool (x y : R) : bool :=
  if Req_EM_T x y then true else false.

(** [x < y] on floats. *)
Definition Rlt_bool (x y : R) : bool :=
  if Rlt_dec x y then true else false.

(** [x <= y] on floats. *)
Definition Rle_bool (x y : R) : bool :=
  if Rle_dec x y then true else false.

(** [math.atan2(y, x)]: the argument of the point [(x, y)], in (-pi, pi].
    Both arguments come from Python ints, so there is no negative zero:
    [atan2(0, x)] is [pi] for negative [x], and [atan2(0, 0)] is [0]. *)
Definition atan2 (y x : R) : R :=
  if Rlt_dec 0 x then atan (y / x)
  else if Rlt_dec x 0 then
    if Rle_dec 0 y then atan (y / x) + PI else atan (y / x) - PI
  else
    if Rlt_dec 0 y then PI / 2
    else if Rlt_dec y 0 then - (PI / 2)
    else 0.

(** [math.degrees(x)] is [x * (180 / pi)]. *)
Definition degrees (x : R) : R := x * (180 / PI).

(** [int(x)] on a float: truncation towards zero. *)
Definition py_int (x : R) : Z :=
  if Rle_dec 0 x then Int_part x else (- Int_part (- x))%Z.

(** ** poseestimationmodule.py *)

Module PoseModule.

(** What OpenCV is asked to paint; an image is its shape and the
    operations painted on it so far, in order. *)
Definition Color : Type := (Z * Z * Z)%type.

Inductive DrawOp : Type :=
| Line (p q : Z * Z) (color : Color) (thickness : Z)
| Circle (center : Z * Z) (radius : Z) (color : Color) (thickness : Z)
| Rectangle (p q : Z * Z) (color : Color) (thickness : Z)
| PutText (text : string) (org : Z * Z) (scale : Z) (color : Color)
          (thickness : Z).

Record Image : Type := mkImage {
  img_h : Z;
  img_w : Z;
  img_ops : list DrawOp
}.

Definition paint (img : Image) (ops : list DrawOp) : Image :=
  mkImage (img_h img) (img_w img) (img_ops img ++ ops).

(** [cv2.FILLED] *)
Definition FILLED : Z := (-1)%Z.

(** One entry [[id, cx, cy]] of [lmList]. *)
Record Landmark : Type := mkLandmark {
  lm_id : Z;
  lm_cx : Z;
  lm_cy : Z
}.

(** The fields of [poseDetector] the angle logic reads: the landmark list
    left behind by the last [findPosition]. *)
Record poseDetector : Type := mkDetector {
  lmList : list Landmark
}.

(** A landmark as mediapipe reports it: coordinates relative to the
    image size. *)
Record NormalizedLandmark : Type := mkNorm {
  nl_x : R;
  nl_y : R
}.

(** The loop of [findPosition] over [enumerate(landmarks)], from index
    [id] on. *)
Fixpoint positions (h w : Z) (id : Z) (lms : list NormalizedLandmark)
  : list Landmark :=
  match lms with
  | [] => []
  | lm :: rest =>
      mkLandmark id (py_int (nl_x lm * IZR w)) (py_int (nl_y lm * IZR h))
        :: positions h w (id + 1)%Z rest
  end.

Fixpoint position_dots (h w : Z) (lms : list NormalizedLandmark)
  : list DrawOp :=
  match lms with
  | [] => []
  | lm :: rest =>
      Circle (py_int (nl_x lm * IZR w), py_int (nl_y lm * IZR h)) 5
             (255, 0, 255)%Z FILLED
        :: position_dots h w rest
  end.

(** [findPosition(img, draw)]: [pose_landmarks] is [None] when no pose was
    detected.  Returns the new detector, the image and the list. *)
Definition findPosition (pose_landmarks : option (list NormalizedLandmark))
    (img : Image) (draw : bool) : poseDetector * Image * list Landmark :=
  match pose_landmarks with
  | Some lms =>
      let l := positions (img_h img) (img_w img) 0 lms in
      (mkDetector l,
       if draw then paint img (position_dots (img_h img) (img_w img) lms)
       else img,
       l)
  | None => (mkDetector [], img, [])
  end.

(** The decimal text of a Python int. *)
Definition py_str (z : Z) : string :=
  NilZero.string_of_int (Z.to_int z).

(** What [findAngle] paints when [draw] is set. *)
Definition angle_overlay (x1 y1 x2 y2 x3 y3 : Z) (angle : R) : list DrawOp :=
  [ Line (x1, y1) (x2, y2) (255, 255, 255)%Z 3;
    Line (x3, y3) (x2, y2) (255, 255, 255)%Z 3;
    Circle (x1, y1) 10 (0, 0, 255)%Z 2;
    Circle (x1, y1) 5 (0, 0, 255)%Z FILLED;
    Circle (x2, y2) 10 (0, 0, 255)%Z 2;
    Circle (x2, y2) 5 (0, 0, 255)%Z FILLED;
    Circle (x3, y3) 10 (0, 0, 255)%Z 2;
    Circle (x3, y3) 5 (0, 0, 255)%Z FILLED;
    PutText (py_str (py_int angle)) (x2 - 50, y2 - 50)%Z 2 (0, 0, 255)%Z 2 ].

(** [findAngle(img, p1, p2, p3, draw)]: the returned angle together with
    the image as the call leaves it.  The arithmetic of lines 108 to 111
    is read over the reals here; [Binary64.angle] is the same arithmetic
    on doubles. *)
Definition findAngle (self : poseDetector) (img : Image) (p1 p2 p3 : Z)
    (draw : bool) : pyres (R * Image) :=
  l1 <- py_getitem (lmList self) p1 ;;
  l2 <- py_getitem (lmList self) p2 ;;
  l3 <- py_getitem (lmList self) p3 ;;
  let '(x1, y1) := (lm_cx l1, lm_cy l1) in
  let '(x2, y2) := (lm_cx l2, lm_cy l2) in
  let '(x3, y3) := (lm_cx l3, lm_cy l3) in
  let angle :=
    degrees (atan2 (IZR (y3 - y2)) (IZR (x3 - x2))
             - atan2 (IZR (y1 - y2)) (IZR (x1 - x2))) in
  let angle := if Rlt_bool angle 0 then angle + 360 else angle in
  let img := if draw then paint img (angle_overlay x1 y1 x2 y2 x3 y3 angle)
             else img in
  Ret (angle, img).

End PoseModule.

(** ** numpy.interp *)

(** [numpy.interp(x, (x0, x1), (f0, f1))] on two sample points, as numpy
    defines it: to the right of the samples the result is the last value,
    to the left the first one, on a sample point the sample value, and in
    between the line through the two samples. *)
Definition np_interp (x : R) (xp fp : R * R) : R :=
  let '(x0, x1) := xp in
  let '(f0, f1) := fp in
  if Rlt_bool x1 x then f1
  else if Rlt_bool x x0 then f0
  else if Req_bool x x1 then f1
  else if Req_bool x x0 then f0
  else (f1 - f0) / (x1 - x0) * (x - x0) + f0.

(** ** bicepApp.py *)

Module BicepApp.

Import PoseModule.

(** The values the direction flag [dir] takes. *)
Definition EXTENDING : Z := 0%Z.
Definition CONTRACTING : Z := 1%Z.

(** The variables of [main] that live across loop iterations. *)
Record MainState : Type := mkState {
  dir : Z;
  count : R;
  ptime : R;
  detector : poseDetector
}.

Definition set_rep (st : MainState) (c : R) (d : Z) : MainState :=
  mkState d c (ptime st) (detector st).

(** [main] before the loop: [dir = 0], [count = 0], [ptime = 0]. *)
Definition initial : MainState := mkState 0 0 0 (mkDetector []).

(** The two [if] statements that update the repetition count:
<<
    if per == 100 and dir == 0: count += 0.5; dir = 1
    if per == 0 and dir == 1:   count += 0.5; dir = 0
>> *)
Definition update (per : R) (st : MainState) : MainState :=
  let st1 :=
    if Req_bool per 100 && (dir st =? 0)%Z
    then set_rep st (count st + 0.5) 1
    else st in
  if Req_bool per 0 && (dir st1 =? 1)%Z
  then set_rep st1 (count st1 + 0.5) 0
  else st1.

(** The body of the reset key: [count = 0; dir = 0]. *)
Definition reset (st : MainState) : MainState :=
  set_rep st 0 0.

(** The colour scheme of [main]. *)
Definition primary_color : Color := (255, 100, 100)%Z.
Definition secondary_color : Color := (100, 255, 100)%Z.

(** What the repetition block hands to [draw_progress_bar] and
    [draw_label]; the geometry of the labels is OpenCV's. *)
Record Overlay : Type := mkOverlay {
  ov_angle : R;
  ov_per : R;
  ov_filled_part : Z;
  ov_reps : Z;
  ov_per_label : Z;
  ov_color : Color
}.

(** [per = np.interp(angle, (210, 310), (0, 100))] *)
Definition per_of_angle (angle : R) : R :=
  np_interp angle (210, 310) (0, 100).

(** The block guarded by [if len(lmList) != 0:].  The numbers of the
    overlay are those of the real-number reading: rounding in the angle
    can move [int(per)] and the filled width by one. *)
Definition rep_block (det : poseDetector) (frame : Image)
    (lmList : list Landmark) (st : MainState)
  : pyres (MainState * option Overlay) :=
  if negb (List.length lmList =? 0)%nat then
    r <- findAngle det frame 12 14 16 false ;;
    let angle := fst r in
    let per := per_of_angle angle in
    let progress_bar_fill := np_interp per (0, 100) (0, 540) in
    let filled_part := py_int (progress_bar_fill / 540 * 540) in
    let color := if Rle_bool per 50 then primary_color else secondary_color in
    let st' := update per st in
    Ret (st', Some (mkOverlay angle per filled_part (py_int (count st'))
                              (py_int per) color))
  else Ret (st, None).

(** What one loop iteration reads from the outside world. *)
Record FrameInput : Type := mkInput {
  ret : bool;
  frame : Image;
  pose_landmarks : option (list NormalizedLandmark);
  ctime : R;
  key1 : Z;
  key2 : Z
}.

(** [cv2.waitKey(1) & 0xFF == ord(c)] *)
Definition key_is (key : Z) (code : Z) : bool :=
  (Z.land key 255 =? code)%Z.

Definition ord_r : Z := 114%Z.
Definition ord_q : Z := 113%Z.

(** The part of an iteration up to [cv2.imshow]: pose detection, the
    repetition block and the FPS label.  [findPose] stores what mediapipe
    detects, the input's [pose_landmarks], and lets mediapipe paint the
    skeleton; [findPosition] then turns it into [lmList]. *)
Definition process_frame (inp : FrameInput) (st : MainState)
  : pyres (MainState * option Overlay * Z) :=
  let '(det, img, lmList) :=
    findPosition (pose_landmarks inp) (frame inp) false in
  r <- rep_block det img lmList st ;;
  let '(st1, ov) := r in
  if Req_bool (ctime inp - ptime st1) 0 then Raise ZeroDivisionError
  else
    let fps := 1 / (ctime inp - ptime st1) in
    Ret (mkState (dir st1) (count st1) (ctime inp) det, ov, py_int fps).

(** The two key polls that close an iteration. *)
Definition handle_keys (inp : FrameInput) (st : MainState)
  : MainState * bool :=
  let st' := if key_is (key1 inp) ord_r then reset st else st in
  (st', negb (key_is (key2 inp) ord_q)).

(** One iteration of [while True]; the boolean tells whether the loop
    goes on. *)
Definition loop_body (inp : FrameInput) (st : MainState)
  : pyres (MainState * bool) :=
  if ret inp then
    r <- process_frame inp st ;;
    let '(st1, _, _) := r in
    Ret (handle_keys inp st1)
  else Ret (st, false).

(** The loop over the frames the camera delivers. *)
Fixpoint main_loop (inps : list FrameInput) (st : MainState)
  : pyres MainState :=
  match inps with
  | [] => Ret st
  | inp :: rest =>
      r <- loop_body inp st ;;
      if snd r then main_loop rest (fst r) else Ret (fst r)
  end.

(** The tracker seen from outside: a percentage update or a reset. *)
Inductive TrackerOp : Type :=
| Update (per : R)
| Reset.

Definition apply_op (op : TrackerOp) (st : MainState) : MainState :=
  match op with
  | Update per => update per st
  | Reset => reset st
  end.

Definition run_ops (ops : list TrackerOp) (st : MainState) : MainState :=
  fold_left (fun s op => apply_op op s) ops st.

(** [main] run on the frames the camera delivers. *)
Definition main (inps : list FrameInput) : pyres MainState :=
  main_loop inps initial.

(** What holds of every state the tracker can be in. *)
Definition tracker_inv (st : MainState) : Prop :=
  (exists n : nat, count st = INR n * 0.5)
  /\ (dir st = EXTENDING \/ dir st = CONTRACTING).

(** Two states that agree on count and direction. *)
Definition same_rep (s t : MainState) : Prop :=
  count s = count t /\ dir s = dir t.

(** The states after each percentage of a sequence. *)
Fixpoint progression (pers : list R) (st : MainState) : list MainState :=
  match pers with
  | [] => []
  | per :: rest => update per st :: progression rest (update per st)
  end.

End BicepApp.

(** ** The specification's wording *)

Module Spec.

(** A 2D point. *)
Record Point : Type := mkPoint {
  px : R;
  py : R
}.

(** "angle = atan2(p3.y - p2.y, p3.x - p2.x) - atan2(p1.y - p2.y,
    p1.x - p2.x), converted to degrees; if negative, add 360." *)
Definition computeAngle (p1 p2 p3 : Point) : R :=
  let a := degrees (atan2 (py p3 - py p2) (px p3 - px p2)
                    - atan2 (py p1 - py p2) (px p1 - px p2)) in
  if Rlt_dec a 0 then a + 360 else a.

(** "linear remap angle in [210,310] -> percentage in [0,100] (unclamped
    linear interpolation matching the calibration range)". *)
Definition remap_unclamped (a : R) : R := (a - 210) / (310 - 210) * 100.

End Spec.

Import PoseModule BicepApp.

(** The point a landmark sits at. *)
Definition point_of (l : Landmark) : Spec.Point :=
  Spec.mkPoint (IZR (lm_cx l)) (IZR (lm_cy l)).

(** ** bicepApp.py: the drawing helpers *)

Section Drawing.

(** [cv2.getTextSize(text, cv2.FONT_HERSHEY_SIMPLEX, font_scale,
    thickness)], which returns [((text_width, text_height), baseline)]:
    the metrics of OpenCV's font. *)
Variable getTextSize : string -> Z -> Z -> (Z * Z) * Z.

(** [draw_label(frame, text, pos, font_scale, thickness, color, bg_color,
    padding)]: a filled background, its border, then the text. *)
Definition draw_label (frame : Image) (text : string) (pos : Z * Z)
    (font_scale thickness : Z) (color bg_color : Color) (padding : Z)
  : Image :=
  let '((text_width, text_height), baseline) :=
    getTextSize text font_scale thickness in
  let '(x, y) := pos in
  paint frame
    [ Rectangle (x - padding, y + padding)%Z
        (x + text_width + padding, y - text_height - baseline - padding)%Z
        bg_color (-1);
      Rectangle (x - padding, y + padding)%Z
        (x + text_width + padding, y - text_height - baseline - padding)%Z
        color 2;
      PutText text (x, y) font_scale color thickness ].

(** The width [draw_progress_bar] fills:
    [int((value / max_value) * size)].  With a zero [max_value] the call
    fails: for a Python float the division raises [ZeroDivisionError];
    for a numpy float the division yields inf or nan and it is [int]
    that raises.  The failure is recorded as [ZeroDivisionError]. *)
Definition filled_part (value : R) (max_value size : Z) : pyres Z :=
  if (max_value =? 0)%Z then Raise ZeroDivisionError
  else Ret (py_int (value / IZR max_value * IZR size)).

(** [draw_progress_bar(frame, value, max_value, pos, size, color,
    thickness)]: the outline of the bar, then its filled part. *)
Definition draw_progress_bar (frame : Image) (value : R) (max_value : Z)
    (pos : Z * Z) (size : Z) (color : Color) (thickness : Z)
  : pyres Image :=
  filled <- filled_part value max_value size ;;
  Ret (paint frame
         [ Rectangle (fst pos, snd pos)
             (fst pos + size, snd pos + thickness)%Z color 2;
           Rectangle (fst pos, snd pos)
             (fst pos + filled, snd pos + thickness)%Z color (-1) ]).

Definition background_color : Color := (50, 50, 50)%Z.
Definition reset_button_color : Color := (80, 130, 255)%Z.

(** What the repetition block paints on the resized frame: the progress
    bar, the repetitions label and the percentage label. *)
Definition show_overlay (frame_resized : Image) (ov : Overlay)
  : pyres Image :=
  f1 <- draw_progress_bar frame_resized
          (np_interp (ov_per ov) (0, 100) (0, 540)) 540 (30, 560)%Z 540
          secondary_color 20 ;;
  let f2 := draw_label f1 (py_str (ov_reps ov) ++ " Reps") (580, 520)%Z 2 2
              secondary_color primary_color 10 in
  Ret (draw_label f2 (py_str (ov_per_label ov) ++ "%") (10, 60)%Z 2 2
         (ov_color ov) background_color 10).

(** Everything an iteration paints on the resized frame before
    [cv2.imshow]: the overlay when there are landmarks, then the FPS label
    and the reset button. *)
Definition show_frame (frame_resized : Image) (ov : option Overlay)
    (fps : Z) : pyres Image :=
  f1 <- match ov with
        | Some o => show_overlay frame_resized o
        | None => Ret frame_resized
        end ;;
  let f2 := draw_label f1 ("FPS: " ++ py_str fps) (660, 40)%Z 1 1
              secondary_color primary_color 10 in
  Ret (draw_label f2 "Reset Count (r)" (30, 520)%Z 1 1 (255, 255, 255)%Z
         reset_button_color 10).

End Drawing.

(** ** Vocabulary of the properties *)

(** The percentages fed to the tracker one after the other. *)
Definition updates (pers : list R) (st : MainState) : MainState :=
  fold_left (fun s p => update p s) pers st.

(** A percentage on one of the two boundaries the tracker tests. *)
Definition is_boundary (p : R) : bool :=
  Req_bool p 0 || Req_bool p 100.

(** How many of the operations are updates. *)
Fixpoint count_updates (ops : list TrackerOp) : nat :=
  match ops with
  | [] => 0
  | Update _ :: rest => S (count_updates rest)
  | Reset :: rest => count_updates rest
  end.

(** The percentages of [n] full repetitions: up to 100 and back to 0. *)
Fixpoint full_reps (n : nat) : list R :=
  match n with
  | O => []
  | S k => 100 :: 0 :: full_reps k
  end.

(** A landmark moved by [(dx, dy)] pixels. *)
Definition shift_landmark (dx dy : Z) (l : Landmark) : Landmark :=
  mkLandmark (lm_id l) (lm_cx l + dx) (lm_cy l + dy).

(** The landmark list one iteration works on. *)
Definition frame_landmarks (inp : FrameInput) : list Landmark :=
  snd (findPosition (pose_landmarks inp) (frame inp) false).

(** Frames the loop gets through: none or at least 17 landmarks, and a
    clock that has moved on since the frame before. *)
Fixpoint steady (ptime0 : R) (inps : list FrameInput) : Prop :=
  match inps with
  | [] => True
  | inp :: rest =>
      (frame_landmarks inp = [] \/ (17 <= List.length (frame_landmarks inp))%nat)
      /\ ptime0 < ctime inp
      /\ steady (ctime inp) rest
  end.

(** The position [l[i]] reads for an index [i] that is in bounds. *)
Definition py_index {A : Type} (l : list A) (i : Z) : Z :=
  if (i <? 0)%Z then (i + Z.of_nat (List.length l))%Z else i.

(** [i] is a valid index of [l]: it lies in [-len(l), len(l)). *)
Definition in_bounds {A : Type} (l : list A) (i : Z) : Prop :=
  (- Z.of_nat (List.length l) <= i < Z.of_nat (List.length l))%Z.

(** The texts painted by a list of operations, in order. *)
Fixpoint texts (ops : list DrawOp) : list string :=
  match ops with
  | [] => []
  | PutText t _ _ _ _ :: rest => t :: texts rest
  | _ :: rest => texts rest
  end.

(** ** The angle arithmetic on binary64 *)

Module Binary64.

Local Open Scope float_scope.

(** A Python int handed to a float function; exact below 2^53. *)
Definition float_of_int (z : Z) : float :=
  if (z <? 0)%Z then - of_uint63 (Uint63.of_Z (- z))
  else of_uint63 (Uint63.of_Z z).

(** [math.pi] *)
Definition pi : float := 0x1.921fb54442d18p+1.

(** [math.degrees(x)], which CPython computes as [x * (180.0 / pi)]. *)
Definition degrees (x : float) : float := x * (180 / pi).

(** Lines 108 to 111 of [findAngle] on doubles; [atan2] is the
    platform's [math.atan2]. *)
Definition angle (atan2 : float -> float -> float)
    (x1 y1 x2 y2 x3 y3 : Z) : float :=
  let angle :=
    degrees (atan2 (float_of_int (y3 - y2)) (float_of_int (x3 - x2))
             - atan2 (float_of_int (y1 - y2)) (float_of_int (x1 - x2))) in
  if angle <? 0 then angle + 360 else angle.



End Binary64.


(** ** Two frames of a curl *)

(** A pose of 17 landmarks in which only the shoulder (12), the elbow
    (14) and the wrist (16) matter: shoulder to the right of the elbow,
    wrist where it is put. *)
Definition arm_pose (wrist : NormalizedLandmark) : list NormalizedLandmark :=
  repeat (mkNorm 0.5 0.5) 12
  ++ [ mkNorm 0.75 0.5; mkNorm 0.5 0.5; mkNorm 0.5 0.5; mkNorm 0.5 0.5;
       wrist ].

(** The wrist up and to the right of the elbow, at time 1. *)
Definition frame_up : FrameInput :=
  mkInput true (mkImage 800 800 []) (Some (arm_pose (mkNorm 0.75 0.25)))
    1 (-1) (-1).

(** The wrist to the left of the elbow, the arm stretched, at time 2. *)
Definition frame_down : FrameInput :=
  mkInput true (mkImage 800 800 []) (Some (arm_pose (mkNorm 0.25 0.5)))
    2 (-1) (-1).

(** * Properties *)

(** ** Float comparisons *)

Section Comparisons.

Variables x y : R.

Lemma Req_bool_true : x = y -> Req_bool x y = true.
Proof. intros E. unfold Req_bool. destruct (Req_EM_T x y); [reflexivity | contradiction]. Qed.

Lemma Req_bool_false : x <> y -> Req_bool x y = false.
Proof. intros E. unfold Req_bool. destruct (Req_EM_T x y); [contradiction | reflexivity]. Qed.

Lemma Req_bool_eq : Req_bool x y = true -> x = y.
Proof. unfold Req_bool. destruct (Req_EM_T x y); [trivial | discriminate]. Qed.

End Comparisons.

(** Decide every float test in the goal, closing the impossible cases by
    linear arithmetic. *)
Ltac float_cases :=
  unfold Req_bool, Rlt_bool, Rle_bool in *;
  repeat match goal with
         | |- context [Req_EM_T ?a ?b] => destruct (Req_EM_T a b)
         | |- context [Rlt_dec ?a ?b] => destruct (Rlt_dec a b)
         | |- context [Rle_dec ?a ?b] => destruct (Rle_dec a b)
         end;
  try lra.

(** ** The repetition tracker *)

Lemma update_frame (p : R) (st : MainState) :
  ptime (update p st) = ptime st /\ detector (update p st) = detector st.
Proof.
  unfold update.
  destruct (Req_bool p 100 && (dir st =? 0)%Z); simpl;
    match goal with |- context [if ?b then _ else _] => destruct b end;
    simpl; auto.
Qed.

Lemma update_up (st : MainState) :
  dir st = EXTENDING ->
  update 100 st = set_rep st (count st + 0.5) CONTRACTING.
Proof.
  intros D. unfold update. rewrite D.
  rewrite (Req_bool_true 100 100 eq_refl). simpl.
  rewrite (Req_bool_false 100 0) by lra. reflexivity.
Qed.

Lemma update_down (st : MainState) :
  dir st = CONTRACTING ->
  update 0 st = set_rep st (count st + 0.5) EXTENDING.
Proof.
  intros D. unfold update. rewrite D.
  rewrite (Req_bool_false 0 100) by lra. simpl. rewrite D.
  rewrite (Req_bool_true 0 0 eq_refl). reflexivity.
Qed.

Lemma update_idle (p : R) (st : MainState) :
  ~ (p = 100 /\ dir st = EXTENDING) ->
  ~ (p = 0 /\ dir st = CONTRACTING) ->
  update p st = st.
Proof.
  intros N1 N2. unfold update.
  destruct (Req_bool p 100 && (dir st =? 0)%Z) eqn:E1.
  - apply andb_true_iff in E1 as [E1 E2].
    apply Req_bool_eq in E1. apply Z.eqb_eq in E2. tauto.
  - destruct (Req_bool p 0 && (dir st =? 1)%Z) eqn:E2; [| reflexivity].
    apply andb_true_iff in E2 as [E2 E3].
    apply Req_bool_eq in E2. apply Z.eqb_eq in E3. tauto.
Qed.

Lemma update_inside (p : R) (st : MainState) :
  0 < p < 100 -> update p st = st.
Proof. intros H. apply update_idle; lra. Qed.

(** Every update is one of the three transitions. *)
Lemma update_cases (p : R) (st : MainState) :
  (p = 100 /\ dir st = EXTENDING
   /\ update p st = set_rep st (count st + 0.5) CONTRACTING)
  \/ (p = 0 /\ dir st = CONTRACTING
      /\ update p st = set_rep st (count st + 0.5) EXTENDING)
  \/ update p st = st.
Proof.
  destruct (Req_EM_T p 100) as [E | N].
  - destruct (Z.eq_dec (dir st) EXTENDING) as [D | D].
    + left. subst p. auto using update_up.
    + right; right. apply update_idle; [tauto | lra].
  - destruct (Req_EM_T p 0) as [E0 | N0].
    + destruct (Z.eq_dec (dir st) CONTRACTING) as [D | D].
      * right; left. subst p. auto using update_down.
      * right; right. apply update_idle; tauto.
    + right; right. apply update_idle; tauto.
Qed.

(** C1: [update] is exactly the two edge-triggered transitions and is the
    identity on every other input; nothing but [count] and [dir] is
    touched; and from (0, EXTENDING) the percentages 50, 100, 50, 0 give
    the counts 0, 0.5, 0.5, 1 and the directions EXTENDING, CONTRACTING,
    CONTRACTING, EXTENDING. *)
Theorem update_transitions (st : MainState) (p : R) :
  (p = 100 /\ dir st = EXTENDING ->
     update p st = set_rep st (count st + 0.5) CONTRACTING)
  /\ (p = 0 /\ dir st = CONTRACTING ->
        update p st = set_rep st (count st + 0.5) EXTENDING)
  /\ (~ (p = 100 /\ dir st = EXTENDING) ->
      ~ (p = 0 /\ dir st = CONTRACTING) ->
        update p st = st)
  /\ (0 < p < 100 \/ p < 0 \/ 100 < p -> update p st = st)
  /\ map count (progression [50; 100; 50; 0] initial) = [0; 0.5; 0.5; 1]
  /\ map dir (progression [50; 100; 50; 0] initial)
     = [EXTENDING; CONTRACTING; CONTRACTING; EXTENDING].
Proof.
  split; [| split; [| split; [| split]]].
  - intros [-> D]. now apply update_up.
  - intros [-> D]. now apply update_down.
  - apply update_idle.
  - intros H. apply update_idle; lra.
  - assert (S1 : update 50 initial = initial) by (apply update_inside; lra).
    assert (S2 : update 100 initial = set_rep initial 0.5 CONTRACTING).
    { rewrite update_up by reflexivity. unfold set_rep. simpl. f_equal. lra. }
    assert (S3 : update 50 (set_rep initial 0.5 CONTRACTING)
                 = set_rep initial 0.5 CONTRACTING)
      by (apply update_inside; lra).
    assert (S4 : update 0 (set_rep initial 0.5 CONTRACTING)
                 = set_rep initial 1 EXTENDING).
    { rewrite update_down by reflexivity. unfold set_rep. simpl. f_equal. lra. }
    simpl progression. rewrite S1, S2, S3, S4. split; reflexivity.
Qed.

(** ** The angle-to-percentage remap *)

Lemma per_of_angle_below (a : R) : a < 210 -> per_of_angle a = 0.
Proof. intros H. unfold per_of_angle, np_interp. float_cases. Qed.

Lemma per_of_angle_above (a : R) : 310 < a -> per_of_angle a = 100.
Proof. intros H. unfold per_of_angle, np_interp. float_cases. Qed.

Lemma per_of_angle_within (a : R) :
  210 <= a <= 310 -> per_of_angle a = Spec.remap_unclamped a.
Proof.
  intros H. unfold per_of_angle, np_interp, Spec.remap_unclamped.
  float_cases; subst; lra.
Qed.

(** C2, as the specification words it, fails: at the angle 200 the remap
    of the code gives 0, while the unclamped line gives -10. *)
Lemma remap_unclamped_fails :
  per_of_angle 200 = 0
  /\ Spec.remap_unclamped 200 = -10
  /\ per_of_angle 200 <> Spec.remap_unclamped 200
  /\ ~ per_of_angle 200 < 0.
Proof.
  assert (A : per_of_angle 200 = 0) by (apply per_of_angle_below; lra).
  assert (B : Spec.remap_unclamped 200 = -10)
    by (unfold Spec.remap_unclamped; lra).
  rewrite A, B. repeat split; lra.
Qed.

(** C2, amended: the remap is the line (a - 210) / (310 - 210) * 100 on the
    calibration range [210, 310] and is clamped outside it: 0 below 210,
    100 above 310; so the percentage always lies in [0, 100]. *)
Theorem remap_clamped (a : R) :
  (210 <= a <= 310 -> per_of_angle a = (a - 210) / (310 - 210) * 100)
  /\ (a < 210 -> per_of_angle a = 0)
  /\ (310 < a -> per_of_angle a = 100)
  /\ 0 <= per_of_angle a <= 100.
Proof.
  split; [| split; [| split]].
  - apply per_of_angle_within.
  - apply per_of_angle_below.
  - apply per_of_angle_above.
  - destruct (Rlt_dec a 210) as [L | L].
    + rewrite per_of_angle_below by trivial. lra.
    + destruct (Rlt_dec 310 a) as [U | U].
      * rewrite per_of_angle_above by trivial. lra.
      * rewrite per_of_angle_within by lra. unfold Spec.remap_unclamped. lra.
Qed.

(** ** Invariants of the tracker *)

Lemma tracker_inv_initial : tracker_inv initial.
Proof. split; [exists 0%nat; simpl; lra | left; reflexivity]. Qed.

Lemma tracker_inv_half (st : MainState) (d : Z) :
  tracker_inv st -> d = EXTENDING \/ d = CONTRACTING ->
  tracker_inv (set_rep st (count st + 0.5) d).
Proof.
  intros [[n Hn] _] Hd. split; [| exact Hd].
  exists (S n). simpl count. rewrite Hn, S_INR. lra.
Qed.

Lemma tracker_inv_update (p : R) (st : MainState) :
  tracker_inv st -> tracker_inv (update p st).
Proof.
  intros I.
  destruct (update_cases p st) as [(_ & _ & ->) | [(_ & _ & ->) | ->]];
    auto using tracker_inv_half.
Qed.

Lemma tracker_inv_reset (st : MainState) : tracker_inv (reset st).
Proof. split; [exists 0%nat; simpl; lra | left; reflexivity]. Qed.

Lemma tracker_inv_apply (op : TrackerOp) (st : MainState) :
  tracker_inv st -> tracker_inv (apply_op op st).
Proof.
  destruct op; simpl; auto using tracker_inv_update, tracker_inv_reset.
Qed.

Lemma tracker_inv_run (ops : list TrackerOp) (st : MainState) :
  tracker_inv st -> tracker_inv (run_ops ops st).
Proof.
  revert st. induction ops as [| op ops IH]; intros st I; simpl.
  - exact I.
  - apply IH. now apply tracker_inv_apply.
Qed.

Lemma update_count_mono (p : R) (st : MainState) :
  count st <= count (update p st).
Proof.
  destruct (update_cases p st) as [(_ & _ & ->) | [(_ & _ & ->) | ->]];
    simpl; lra.
Qed.

Lemma update_flip (p : R) (st : MainState) :
  dir (update p st) <> dir st ->
  (p = 100 /\ dir st = EXTENDING) \/ (p = 0 /\ dir st = CONTRACTING).
Proof.
  intros F.
  destruct (update_cases p st) as [(P & D & _) | [(P & D & _) | E]]; auto.
  rewrite E in F. contradiction.
Qed.

(** C3: in every state reached from (0, EXTENDING) by updates and resets,
    the count is a non-negative multiple of 0.5 and the direction is
    EXTENDING or CONTRACTING; a further update never lowers the count and
    a reset sets it to 0; an update changes the direction only on 100
    while EXTENDING or on 0 while CONTRACTING; and an update with a
    percentage strictly between 0 and 100 changes nothing. *)
Theorem tracker_invariants (ops : list TrackerOp) :
  let st := run_ops ops initial in
  (exists n : nat, count st = INR n * 0.5)
  /\ 0 <= count st
  /\ (dir st = EXTENDING \/ dir st = CONTRACTING)
  /\ (forall p, count st <= count (apply_op (Update p) st))
  /\ count (apply_op Reset st) = 0
  /\ (forall p, dir (apply_op (Update p) st) <> dir st ->
        (p = 100 /\ dir st = EXTENDING) \/ (p = 0 /\ dir st = CONTRACTING))
  /\ (forall p, 0 < p < 100 -> apply_op (Update p) st = st).
Proof.
  intros st.
  destruct (tracker_inv_run ops initial tracker_inv_initial) as [[n Hn] Hd].
  fold st in Hn, Hd.
  split; [now exists n |].
  split; [rewrite Hn; pose proof (pos_INR n); lra |].
  split; [exact Hd |].
  split; [intros p; apply update_count_mono |].
  split; [reflexivity |].
  split; [intros p; apply update_flip |].
  intros p; apply update_inside.
Qed.

(** ** Reset *)

(** C6: whatever the state, [reset] leaves count 0 and direction
    EXTENDING and keeps every other variable; the reset key does exactly
    this and any other key leaves the state alone. *)
Theorem reset_clears (st : MainState) :
  count (reset st) = 0
  /\ dir (reset st) = EXTENDING
  /\ ptime (reset st) = ptime st
  /\ detector (reset st) = detector st
  /\ (forall inp, key_is (key1 inp) ord_r = true ->
        fst (handle_keys inp st) = reset st)
  /\ (forall inp, key_is (key1 inp) ord_r = false ->
        fst (handle_keys inp st) = st).
Proof.
  repeat split; intros inp K; unfold handle_keys; rewrite K; reflexivity.
Qed.

(** ** Repeated boundary input *)

Lemma update_100_idempotent (st : MainState) :
  update 100 (update 100 st) = update 100 st.
Proof.
  destruct (update_cases 100 st) as [(_ & D & E) | [(P & _) | E]].
  - rewrite E. apply update_idle; simpl; [| lra].
    intros [_ C]. discriminate C.
  - lra.
  - now rewrite !E.
Qed.

(** C8: from direction EXTENDING and any count, two updates with 100 in a
    row add 0.5 once: the first moves to CONTRACTING, the second changes
    nothing. *)
Theorem update_100_twice (st : MainState) :
  dir st = EXTENDING ->
  dir (update 100 st) = CONTRACTING
  /\ count (update 100 st) = count st + 0.5
  /\ update 100 (update 100 st) = update 100 st
  /\ count (update 100 (update 100 st)) = count st + 0.5
  /\ dir (update 100 (update 100 st)) = CONTRACTING.
Proof.
  intros D. rewrite update_100_idempotent, (update_up st D).
  repeat split.
Qed.

(** The two updates with 100 from the initial state. *)
Lemma update_100_twice_witness :
  dir initial = EXTENDING
  /\ count (update 100 (update 100 initial)) = count initial + 0.5.
Proof.
  split; [reflexivity |].
  apply (update_100_twice initial). reflexivity.
Defined.

(** ** Python indexing *)

Section Indexing.

Context {A : Type}.

Lemma py_getitem_nat (l : list A) (n : nat) :
  (n < List.length l)%nat ->
  exists a, py_getitem l (Z.of_nat n) = Ret a /\ nth_error l n = Some a.
Proof.
  intros H. unfold py_getitem.
  destruct (Z.ltb_spec (Z.of_nat n) 0) as [N | _]; [lia |].
  destruct (Z.leb_spec 0 (Z.of_nat n)) as [_ | N]; [| lia].
  destruct (Z.ltb_spec (Z.of_nat n) (Z.of_nat (List.length l))) as [_ | N];
    [| lia].
  simpl. rewrite Nat2Z.id.
  destruct (nth_error l n) as [a |] eqn:E.
  - now exists a.
  - apply nth_error_None in E. lia.
Qed.

Lemma py_getitem_past_end (l : list A) (n : nat) :
  (List.length l <= n)%nat -> py_getitem l (Z.of_nat n) = Raise IndexError.
Proof.
  intros H. unfold py_getitem.
  destruct (Z.ltb_spec (Z.of_nat n) 0) as [N | _]; [lia |].
  destruct (Z.ltb_spec (Z.of_nat n) (Z.of_nat (List.length l))) as [N | _];
    [lia |].
  now rewrite andb_false_r.
Qed.

(** Indexing raises nothing but [IndexError]. *)
Lemma py_getitem_raises (l : list A) (i : Z) (e : PyExn) :
  py_getitem l i = Raise e -> e = IndexError.
Proof.
  unfold py_getitem.
  destruct (_ && _); [destruct (nth_error _ _) |]; congruence.
Qed.

(** An index is in bounds exactly when it lies in [-len, len). *)
Lemma py_getitem_bounds (l : list A) (i : Z) :
  (exists a, py_getitem l i = Ret a)
  <-> (- Z.of_nat (List.length l) <= i < Z.of_nat (List.length l))%Z.
Proof.
  unfold py_getitem. set (n := Z.of_nat (List.length l)).
  destruct (Z.ltb_spec i 0) as [N | N].
  - destruct (Z.leb_spec 0 (i + n)) as [L | L];
      destruct (Z.ltb_spec (i + n) n) as [U | U]; simpl;
      try (split; [intros [a E]; discriminate E | lia]).
    destruct (nth_error l (Z.to_nat (i + n))) as [a |] eqn:E.
    + split; [lia | now exists a].
    + apply nth_error_None in E. lia.
  - destruct (Z.leb_spec 0 i) as [L | L]; [| lia].
    destruct (Z.ltb_spec i n) as [U | U]; simpl;
      try (split; [intros [a E]; discriminate E | lia]).
    destruct (nth_error l (Z.to_nat i)) as [a |] eqn:E.
    + split; [lia | now exists a].
    + apply nth_error_None in E. lia.
Qed.

End Indexing.

(** ** The joint angle *)

Lemma atan_nonpos (t : R) : t <= 0 -> atan t <= 0.
Proof.
  intros [L | ->].
  - pose proof (atan_increasing t 0 L) as H. rewrite atan_0 in H. lra.
  - rewrite atan_0. lra.
Qed.

Lemma atan_pos (t : R) : 0 < t -> 0 < atan t.
Proof.
  intros L. pose proof (atan_increasing 0 t L) as H.
  now rewrite atan_0 in H.
Qed.

(** [atan2] ranges over (-pi, pi]. *)
Lemma atan2_range (y x : R) : - PI < atan2 y x <= PI.
Proof.
  pose proof PI_RGT_0 as P.
  pose proof (atan_bound (y / x)) as B.
  unfold atan2.
  destruct (Rlt_dec 0 x) as [X | X]; [lra |].
  destruct (Rlt_dec x 0) as [X' | X'].
  - pose proof (Rinv_lt_0_compat x X') as I.
    destruct (Rle_dec 0 y) as [Y | Y].
    + assert (y / x <= 0) by (unfold Rdiv; nra).
      pose proof (atan_nonpos (y / x)). lra.
    + assert (0 < y / x) by (unfold Rdiv; nra).
      pose proof (atan_pos (y / x)). lra.
  - destruct (Rlt_dec 0 y); [lra |]. destruct (Rlt_dec y 0); lra.
Qed.

Lemma degrees_scale (t b : R) :
  (t < b * PI -> degrees t < b * 180)
  /\ (b * PI < t -> b * 180 < degrees t).
Proof.
  pose proof PI_RGT_0 as P.
  assert (K : 0 < 180 / PI) by (apply Rdiv_lt_0_compat; lra).
  assert (E : b * 180 = b * PI * (180 / PI)) by (field; lra).
  unfold degrees. rewrite E. split; intros H; nra.
Qed.

(** The specification's angle always lies in [0, 360). *)
Lemma computeAngle_range (p1 p2 p3 : Spec.Point) :
  0 <= Spec.computeAngle p1 p2 p3 < 360.
Proof.
  unfold Spec.computeAngle.
  set (a3 := atan2 _ _). set (a1 := atan2 _ _).
  pose proof (atan2_range (Spec.py p3 - Spec.py p2) (Spec.px p3 - Spec.px p2)) as R3.
  pose proof (atan2_range (Spec.py p1 - Spec.py p2) (Spec.px p1 - Spec.px p2)) as R1.
  fold a3 in R3. fold a1 in R1.
  destruct (degrees_scale (a3 - a1) 2) as [U _].
  destruct (degrees_scale (a3 - a1) (-2)) as [_ L].
  destruct (Rlt_dec (degrees (a3 - a1)) 0); lra.
Qed.

(** With the three landmarks in hand, the arithmetic of [findAngle] is the
    specification's [computeAngle]. *)
Lemma findAngle_arith (l1 l2 l3 : Landmark) :
  (let angle :=
     degrees (atan2 (IZR (lm_cy l3 - lm_cy l2)) (IZR (lm_cx l3 - lm_cx l2))
              - atan2 (IZR (lm_cy l1 - lm_cy l2)) (IZR (lm_cx l1 - lm_cx l2)))
   in if Rlt_bool angle 0 then angle + 360 else angle)
  = Spec.computeAngle (point_of l1) (point_of l2) (point_of l3).
Proof.
  unfold Spec.computeAngle, point_of, Rlt_bool. simpl.
  rewrite !minus_IZR. destruct (Rlt_dec _ 0); reflexivity.
Qed.

Lemma findAngle_found (det : poseDetector) (img : Image) (p1 p2 p3 : Z)
    (draw : bool) (l1 l2 l3 : Landmark) :
  py_getitem (lmList det) p1 = Ret l1 ->
  py_getitem (lmList det) p2 = Ret l2 ->
  py_getitem (lmList det) p3 = Ret l3 ->
  findAngle det img p1 p2 p3 draw
  = Ret (Spec.computeAngle (point_of l1) (point_of l2) (point_of l3),
         if draw
         then paint img
                (angle_overlay (lm_cx l1) (lm_cy l1) (lm_cx l2) (lm_cy l2)
                   (lm_cx l3) (lm_cy l3)
                   (Spec.computeAngle (point_of l1) (point_of l2)
                      (point_of l3)))
         else img).
Proof.
  intros E1 E2 E3. unfold findAngle. rewrite E1, E2, E3. simpl.
  pose proof (findAngle_arith l1 l2 l3) as F. simpl in F. rewrite F.
  reflexivity.
Qed.

(** A failing lookup makes [findAngle] raise [IndexError], whatever the
    draw flag. *)
Lemma findAngle_missing (det : poseDetector) (img : Image) (p1 p2 p3 : Z)
    (draw : bool) :
  (exists e, py_getitem (lmList det) p1 = Raise e)
  \/ (exists e, py_getitem (lmList det) p2 = Raise e)
  \/ (exists e, py_getitem (lmList det) p3 = Raise e) ->
  findAngle det img p1 p2 p3 draw = Raise IndexError.
Proof.
  unfold findAngle.
  destruct (py_getitem (lmList det) p1) as [l1 | e1] eqn:E1.
  2:{ intros _. apply py_getitem_raises in E1. now subst. }
  destruct (py_getitem (lmList det) p2) as [l2 | e2] eqn:E2.
  2:{ intros _. apply py_getitem_raises in E2. now subst. }
  destruct (py_getitem (lmList det) p3) as [l3 | e3] eqn:E3.
  2:{ intros _. apply py_getitem_raises in E3. now subst. }
  intros [[e H] | [[e H] | [e H]]]; discriminate H.
Qed.

(** C4: with the three landmarks in the list, [findAngle] returns
    degrees(atan2(y3 - y2, x3 - x2) - atan2(y1 - y2, x1 - x2)), plus 360
    when that is negative, which is the specification's [computeAngle];
    and for p1 = (100, 0), p2 = (0, 0), p3 = (0, -100) it returns 270. *)
Theorem findAngle_formula (det : poseDetector) (img : Image) (p1 p2 p3 : Z)
    (draw : bool) (l1 l2 l3 : Landmark) :
  py_getitem (lmList det) p1 = Ret l1 ->
  py_getitem (lmList det) p2 = Ret l2 ->
  py_getitem (lmList det) p3 = Ret l3 ->
  let d :=
    degrees (atan2 (IZR (lm_cy l3) - IZR (lm_cy l2))
                   (IZR (lm_cx l3) - IZR (lm_cx l2))
             - atan2 (IZR (lm_cy l1) - IZR (lm_cy l2))
                     (IZR (lm_cx l1) - IZR (lm_cx l2))) in
  (d < 0 -> returned (findAngle det img p1 p2 p3 draw) = Ret (d + 360))
  /\ (0 <= d -> returned (findAngle det img p1 p2 p3 draw) = Ret d)
  /\ returned (findAngle det img p1 p2 p3 draw)
     = Ret (Spec.computeAngle (point_of l1) (point_of l2) (point_of l3))
  /\ Spec.computeAngle (Spec.mkPoint 100 0) (Spec.mkPoint 0 0)
       (Spec.mkPoint 0 (-100)) = 270
  /\ returned (findAngle
                 (mkDetector [mkLandmark 0 100 0; mkLandmark 1 0 0;
                              mkLandmark 2 0 (-100)])
                 img 0 1 2 draw) = Ret 270.
Proof.
  intros E1 E2 E3 d.
  assert (C : Spec.computeAngle (Spec.mkPoint 100 0) (Spec.mkPoint 0 0)
                (Spec.mkPoint 0 (-100)) = 270).
  { pose proof PI_RGT_0 as P.
    unfold Spec.computeAngle, atan2, degrees. simpl.
    replace (0 - 0) with 0 by lra.
    replace (-100 - 0) with (-100) by lra.
    replace (100 - 0) with 100 by lra.
    replace (0 / 100) with 0 by lra. rewrite atan_0.
    assert (Q : (- (PI / 2) - 0) * (180 / PI) = -90) by (field; lra).
    float_cases. }
  assert (G : returned (findAngle
                          (mkDetector [mkLandmark 0 100 0; mkLandmark 1 0 0;
                                       mkLandmark 2 0 (-100)])
                          img 0 1 2 draw) = Ret 270).
  { rewrite (findAngle_found _ img 0 1 2 draw (mkLandmark 0 100 0)
               (mkLandmark 1 0 0) (mkLandmark 2 0 (-100)))
      by reflexivity.
    unfold returned, point_of. simpl. now rewrite C. }
  rewrite (findAngle_found det img p1 p2 p3 draw l1 l2 l3 E1 E2 E3).
  unfold returned.
  assert (D : Spec.computeAngle (point_of l1) (point_of l2) (point_of l3)
              = if Rlt_dec d 0 then d + 360 else d) by reflexivity.
  split; [| split; [| split; [| split]]].
  - intros N. rewrite D. destruct (Rlt_dec d 0); [reflexivity | lra].
  - intros N. rewrite D. destruct (Rlt_dec d 0); [lra | reflexivity].
  - reflexivity.
  - exact C.
  - exact G.
Qed.

(** The concrete triple, read off a three-entry landmark list. *)
Lemma findAngle_formula_witness :
  returned (findAngle
              (mkDetector [mkLandmark 0 100 0; mkLandmark 1 0 0;
                           mkLandmark 2 0 (-100)])
              (mkImage 600 800 []) 0 1 2 true)
  = Ret (Spec.computeAngle (Spec.mkPoint 100 0) (Spec.mkPoint 0 0)
           (Spec.mkPoint 0 (-100))).
Proof.
  apply (findAngle_formula
           (mkDetector [mkLandmark 0 100 0; mkLandmark 1 0 0;
                        mkLandmark 2 0 (-100)])
           (mkImage 600 800 []) 0 1 2 true
           (mkLandmark 0 100 0) (mkLandmark 1 0 0) (mkLandmark 2 0 (-100)));
    reflexivity.
Defined.



(** C9: for every landmark list and every three ids, [findAngle] returns
    the same angle, or raises the same exception, with the draw flag set
    and unset; without the flag the image is left as it was, with it the
    image only gains painted operations. *)
Theorem findAngle_draw_independent (det : poseDetector) (img : Image)
    (p1 p2 p3 : Z) :
  returned (findAngle det img p1 p2 p3 true)
  = returned (findAngle det img p1 p2 p3 false)
  /\ (forall a img', findAngle det img p1 p2 p3 false = Ret (a, img') ->
        img' = img)
  /\ (forall a img', findAngle det img p1 p2 p3 true = Ret (a, img') ->
        exists ops, img' = paint img ops).
Proof.
  unfold findAngle.
  destruct (py_getitem (lmList det) p1) as [l1 | e1]; simpl;
    [| repeat split; intros; discriminate].
  destruct (py_getitem (lmList det) p2) as [l2 | e2]; simpl;
    [| repeat split; intros; discriminate].
  destruct (py_getitem (lmList det) p3) as [l3 | e3]; simpl;
    [| repeat split; intros; discriminate].
  repeat split.
  - intros a img' E. now inversion E.
  - intros a img' E. inversion E. eexists. reflexivity.
Qed.

(** ** The orchestrator's guard *)

Lemma rep_block_nonempty (det : poseDetector) (frame : Image)
    (l : list Landmark) (st : MainState) :
  l <> [] ->
  rep_block det frame l st
  = (r <- findAngle det frame 12 14 16 false ;;
     Ret (update (per_of_angle (fst r)) st,
          Some (mkOverlay (fst r) (per_of_angle (fst r))
                  (py_int (np_interp (per_of_angle (fst r)) (0, 100) (0, 540)
                           / 540 * 540))
                  (py_int (count (update (per_of_angle (fst r)) st)))
                  (py_int (per_of_angle (fst r)))
                  (if Rle_bool (per_of_angle (fst r)) 50
                   then primary_color else secondary_color)))).
Proof.
  intros N. unfold rep_block. destruct l; [contradiction | reflexivity].
Qed.

(** C10, as stated, fails for a negative id: on a list of three
    landmarks the ids -4, 1, 2 have their maximum below the length, and
    [findAngle] raises [IndexError]. *)
Lemma findAngle_in_bounds_fails :
  (Z.max (-4) (Z.max 1 2)
   < Z.of_nat (List.length (lmList (mkDetector
                 [mkLandmark 0 100 0; mkLandmark 1 0 0;
                  mkLandmark 2 0 (-100)]))))%Z
  /\ findAngle (mkDetector [mkLandmark 0 100 0; mkLandmark 1 0 0;
                            mkLandmark 2 0 (-100)])
       (mkImage 600 800 []) (-4) 1 2 false
     = Raise IndexError.
Proof. split; [simpl; lia | reflexivity]. Qed.

(** C10, amended: [findAngle] looks the three ids up without any check
    of its own.  For non-negative ids a list longer than max(p1, p2, p3)
    makes all three lookups succeed and [findAngle] return an angle,
    while an id at or past the end makes it raise [IndexError]; a
    negative id counts from the end and is accepted only down to -len.
    Behind the guard [len(lmList) != 0] the call with ids 12, 14, 16
    returns exactly when the list has at least 17 entries, and raises
    [IndexError] on a shorter non-empty list. *)
Theorem findAngle_in_bounds (det : poseDetector) (img : Image)
    (p1 p2 p3 : Z) (draw : bool) (st : MainState) :
  (0 <= p1)%Z -> (0 <= p2)%Z -> (0 <= p3)%Z ->
  ((Z.max p1 (Z.max p2 p3) < Z.of_nat (List.length (lmList det)))%Z ->
     exists angle : R,
       returned (findAngle det img p1 p2 p3 draw) = Ret angle)
  /\ ((Z.of_nat (List.length (lmList det)) <= Z.max p1 (Z.max p2 p3))%Z ->
        findAngle det img p1 p2 p3 draw = Raise IndexError)
  /\ (forall q : Z,
        (q < 0)%Z ->
        ((exists l, py_getitem (lmList det) q = Ret l)
         <-> (- Z.of_nat (List.length (lmList det)) <= q)%Z))
  /\ (lmList det <> [] ->
        ((17 <= List.length (lmList det))%nat <->
         exists r, rep_block det img (lmList det) st = Ret r)
        /\ ((List.length (lmList det) < 17)%nat ->
              rep_block det img (lmList det) st = Raise IndexError)).
Proof.
  assert (Found : forall (q1 q2 q3 : nat) (d : bool),
             (Nat.max q1 (Nat.max q2 q3) < List.length (lmList det))%nat ->
             exists a i, findAngle det img (Z.of_nat q1) (Z.of_nat q2)
                           (Z.of_nat q3) d = Ret (a, i)).
  { intros q1 q2 q3 d H.
    destruct (py_getitem_nat (lmList det) q1) as (l1 & E1 & _); [lia |].
    destruct (py_getitem_nat (lmList det) q2) as (l2 & E2 & _); [lia |].
    destruct (py_getitem_nat (lmList det) q3) as (l3 & E3 & _); [lia |].
    rewrite (findAngle_found det img _ _ _ d l1 l2 l3 E1 E2 E3).
    eauto. }
  assert (Missing : forall (q1 q2 q3 : nat) (d : bool),
             (List.length (lmList det) <= Nat.max q1 (Nat.max q2 q3))%nat ->
             findAngle det img (Z.of_nat q1) (Z.of_nat q2) (Z.of_nat q3) d
             = Raise IndexError).
  { intros q1 q2 q3 d H. apply findAngle_missing.
    destruct (Nat.le_gt_cases (List.length (lmList det)) q1) as [L1 | L1].
    { left. eexists. now apply py_getitem_past_end. }
    destruct (Nat.le_gt_cases (List.length (lmList det)) q2) as [L2 | L2].
    { right; left. eexists. now apply py_getitem_past_end. }
    right; right. eexists. apply py_getitem_past_end. lia. }
  intros N1 N2 N3.
  rewrite <- (Z2Nat.id p1 N1), <- (Z2Nat.id p2 N2), <- (Z2Nat.id p3 N3).
  split; [| split; [| split]].
  - intros H. destruct (Found (Z.to_nat p1) (Z.to_nat p2) (Z.to_nat p3) draw)
      as (a & i & E); [lia |].
    exists a. now rewrite E.
  - intros H. apply Missing. lia.
  - intros q Q. rewrite py_getitem_bounds. lia.
  - intros N. rewrite (rep_block_nonempty det img (lmList det) st N).
    split; [split |].
    + intros H.
      destruct (Found 12%nat 14%nat 16%nat false) as (a & i & E);
        [simpl; lia |].
      change (Z.of_nat 12) with 12%Z in E. change (Z.of_nat 14) with 14%Z in E.
      change (Z.of_nat 16) with 16%Z in E.
      rewrite E. simpl. eauto.
    + intros [r E].
      destruct (Nat.le_gt_cases 17 (List.length (lmList det))) as [L | L];
        [exact L |].
      pose proof (Missing 12%nat 14%nat 16%nat false) as M.
      change (Z.of_nat 12) with 12%Z in M. change (Z.of_nat 14) with 14%Z in M.
      change (Z.of_nat 16) with 16%Z in M.
      rewrite M in E by (simpl; lia). discriminate E.
    + intros L.
      pose proof (Missing 12%nat 14%nat 16%nat false) as M.
      change (Z.of_nat 12) with 12%Z in M. change (Z.of_nat 14) with 14%Z in M.
      change (Z.of_nat 16) with 16%Z in M.
      rewrite M by (simpl; lia). reflexivity.
Qed.

(** Ids 0, 1, 2 on a list of three landmarks. *)
Lemma findAngle_in_bounds_witness :
  exists angle : R,
    returned (findAngle
                (mkDetector [mkLandmark 0 100 0; mkLandmark 1 0 0;
                             mkLandmark 2 0 (-100)])
                (mkImage 600 800 []) 0 1 2 false) = Ret angle.
Proof.
  apply (proj1 (findAngle_in_bounds
                  (mkDetector [mkLandmark 0 100 0; mkLandmark 1 0 0;
                               mkLandmark 2 0 (-100)])
                  (mkImage 600 800 []) 0 1 2 false initial
                  ltac:(lia) ltac:(lia) ltac:(lia))).
  simpl. lia.
Defined.

(** C7: a frame with an empty landmark list goes past the repetition
    block: no angle is computed, nothing is overlaid, and the whole frame
    leaves count and direction as they were; the only way such a frame
    can fail is the FPS division when the clock has not moved. *)
Theorem empty_frame_no_update (st : MainState) :
  (forall det img, rep_block det img [] st = Ret (st, None))
  /\ (forall inp,
        snd (findPosition (pose_landmarks inp) (frame inp) false) = [] ->
        match process_frame inp st with
        | Ret (st', ov, _) => same_rep st' st /\ ov = None
        | Raise e => e = ZeroDivisionError /\ ctime inp = ptime st
        end)
  /\ (forall inp,
        snd (findPosition (pose_landmarks inp) (frame inp) false) = [] ->
        key_is (key1 inp) ord_r = false ->
        match loop_body inp st with
        | Ret (st', _) => same_rep st' st
        | Raise e => e = ZeroDivisionError /\ ctime inp = ptime st
        end).
Proof.
  assert (P : forall inp,
             snd (findPosition (pose_landmarks inp) (frame inp) false) = [] ->
             match process_frame inp st with
             | Ret (st', ov, _) => same_rep st' st /\ ov = None
             | Raise e => e = ZeroDivisionError /\ ctime inp = ptime st
             end).
  { intros inp E. unfold process_frame.
    destruct (findPosition (pose_landmarks inp) (frame inp) false)
      as [[det img] l].
    simpl in E. subst l. simpl.
    destruct (Req_bool (ctime inp - ptime st) 0) eqn:T.
    - apply Req_bool_eq in T. split; [reflexivity | lra].
    - unfold same_rep. simpl. auto. }
  split; [reflexivity | split; [exact P |]].
  intros inp E K. specialize (P inp E). unfold loop_body.
  destruct (ret inp); [| split; reflexivity].
  destruct (process_frame inp st) as [[[st1 ov] fps] | e]; simpl.
  - unfold handle_keys. rewrite K. simpl. tauto.
  - exact P.
Qed.

(** ** The loop drives the tracker by updates and resets only *)

Lemma same_rep_refl (s : MainState) : same_rep s s.
Proof. split; reflexivity. Qed.

Lemma same_rep_trans (s t u : MainState) :
  same_rep s t -> same_rep t u -> same_rep s u.
Proof. intros [A B] [C D]. split; congruence. Qed.

Lemma same_rep_update (p : R) (s t : MainState) :
  same_rep s t -> same_rep (update p s) (update p t).
Proof.
  intros [C D]. unfold update, same_rep. rewrite D.
  destruct (Req_bool p 100 && (dir t =? 0)%Z); simpl.
  - destruct (Req_bool p 0 && true); simpl; split; congruence.
  - rewrite D. destruct (Req_bool p 0 && (dir t =? 1)%Z); simpl;
      split; congruence.
Qed.

Lemma same_rep_apply (op : TrackerOp) (s t : MainState) :
  same_rep s t -> same_rep (apply_op op s) (apply_op op t).
Proof.
  destruct op; simpl; [apply same_rep_update | intros _; split; reflexivity].
Qed.

Lemma same_rep_run (ops : list TrackerOp) (s t : MainState) :
  same_rep s t -> same_rep (run_ops ops s) (run_ops ops t).
Proof.
  revert s t. induction ops as [| op ops IH]; intros s t H; simpl;
    auto using same_rep_apply.
Qed.

Lemma run_ops_app (ops1 ops2 : list TrackerOp) (st : MainState) :
  run_ops (ops1 ++ ops2) st = run_ops ops2 (run_ops ops1 st).
Proof. apply fold_left_app. Qed.

Lemma rep_block_ops (det : poseDetector) (img : Image) (l : list Landmark)
    (st st' : MainState) (ov : option Overlay) :
  rep_block det img l st = Ret (st', ov) ->
  exists ops, st' = run_ops ops st.
Proof.
  unfold rep_block. destruct (negb (List.length l =? 0)%nat).
  - destruct (findAngle det img 12 14 16 false) as [r |]; simpl;
      [| discriminate].
    intros E. inversion E. now exists [Update (per_of_angle (fst r))].
  - intros E. inversion E. now exists [].
Qed.

Lemma loop_body_ops (inp : FrameInput) (st st' : MainState) (go : bool) :
  loop_body inp st = Ret (st', go) ->
  exists ops, same_rep st' (run_ops ops st).
Proof.
  unfold loop_body. destruct (ret inp).
  2:{ intros E. inversion E. exists []. apply same_rep_refl. }
  unfold process_frame.
  destruct (findPosition (pose_landmarks inp) (frame inp) false)
    as [[det img] l].
  destruct (rep_block det img l st) as [[st1 ov] | e] eqn:B; simpl;
    [| discriminate].
  destruct (rep_block_ops _ _ _ _ _ _ B) as [ops ->].
  destruct (Req_bool _ 0); simpl; [discriminate |].
  unfold handle_keys. intros E. inversion E.
  destruct (key_is (key1 inp) ord_r).
  - exists (ops ++ [Reset]). rewrite run_ops_app. split; reflexivity.
  - exists ops. split; reflexivity.
Qed.

Lemma main_loop_ops (inps : list FrameInput) (st st' : MainState) :
  main_loop inps st = Ret st' ->
  exists ops, same_rep st' (run_ops ops st).
Proof.
  revert st. induction inps as [| inp rest IH]; intros st; simpl.
  - intros E. inversion E. exists []. apply same_rep_refl.
  - destruct (loop_body inp st) as [[st1 go] | e] eqn:L; simpl;
      [| discriminate].
    destruct (loop_body_ops _ _ _ _ L) as [ops1 H1].
    destruct go.
    + intros E. destruct (IH _ E) as [ops2 H2].
      exists (ops1 ++ ops2). rewrite run_ops_app.
      eapply same_rep_trans; [exact H2 |]. now apply same_rep_run.
    + intros E. inversion E. subst. now exists ops1.
Qed.

(** Whatever the camera delivers, [main] ends in a state of the tracker's
    invariant. *)
Lemma main_tracker_inv (inps : list FrameInput) (st : MainState) :
  main inps = Ret st -> tracker_inv st.
Proof.
  intros E. destruct (main_loop_ops _ _ _ E) as [ops [C D]].
  destruct (tracker_inv_run ops initial tracker_inv_initial) as [[n Hn] Hd].
  split; [exists n | ]; congruence.
Qed.

(** * Further properties of the code *)

(** ** The tracker as a counter of half repetitions *)

Lemma update_step (p : R) (st : MainState) :
  count (update p st) <= count st + 0.5.
Proof.
  destruct (update_cases p st) as [(_ & _ & ->) | [(_ & _ & ->) | ->]];
    simpl; lra.
Qed.

Lemma run_ops_frame (ops : list TrackerOp) (st : MainState) :
  ptime (run_ops ops st) = ptime st
  /\ detector (run_ops ops st) = detector st.
Proof.
  revert st. induction ops as [| op ops IH]; intros st; simpl; [auto |].
  destruct (IH (apply_op op st)) as [P D]. rewrite P, D.
  destruct op; simpl; [apply update_frame | auto].
Qed.

Lemma mod2_succ (n : nat) : (S n mod 2 = 1 - n mod 2)%nat.
Proof.
  pose proof (Nat.div_mod_eq n 2). pose proof (Nat.div_mod_eq (S n) 2).
  pose proof (Nat.mod_upper_bound n 2).
  pose proof (Nat.mod_upper_bound (S n) 2). lia.
Qed.

(** The count, read as a number of halves, together with the direction
    it forces. *)
Lemma halves_step (op : TrackerOp) (st : MainState) (n : nat) :
  count st = INR n * 0.5 -> dir st = Z.of_nat (n mod 2) ->
  exists m : nat,
    count (apply_op op st) = INR m * 0.5
    /\ dir (apply_op op st) = Z.of_nat (m mod 2).
Proof.
  intros C D. destruct op as [p |]; cbn [apply_op].
  - destruct (update_cases p st) as [(_ & D0 & ->) | [(_ & D1 & ->) | ->]].
    + exists (S n). unfold set_rep. cbn [count dir]. rewrite C, S_INR.
      split; [lra |]. unfold EXTENDING, CONTRACTING in *.
      rewrite D in D0. rewrite mod2_succ.
      assert (H : (n mod 2 = 0)%nat) by lia. rewrite H. reflexivity.
    + exists (S n). unfold set_rep. cbn [count dir]. rewrite C, S_INR.
      split; [lra |]. unfold EXTENDING, CONTRACTING in *.
      rewrite D in D1. rewrite mod2_succ.
      assert (H : (n mod 2 = 1)%nat) by lia. rewrite H. reflexivity.
    + now exists n.
  - exists 0%nat. cbn. split; [lra | reflexivity].
Qed.

Lemma halves_run (ops : list TrackerOp) (st : MainState) (n : nat) :
  count st = INR n * 0.5 -> dir st = Z.of_nat (n mod 2) ->
  exists m : nat,
    count (run_ops ops st) = INR m * 0.5
    /\ dir (run_ops ops st) = Z.of_nat (m mod 2).
Proof.
  revert st n. induction ops as [| op ops IH]; intros st n C D; simpl.
  - now exists n.
  - destruct (halves_step op st n C D) as (m & C' & D').
    now apply (IH _ m).
Qed.

(** The direction flag is the parity of the half repetitions counted so
    far: in every state reached from the start by updates and resets the
    count is n halves with [dir = n mod 2], so the direction is
    CONTRACTING exactly when a half repetition is pending. *)
Theorem direction_is_parity (ops : list TrackerOp) :
  exists n : nat,
    count (run_ops ops initial) = INR n * 0.5
    /\ dir (run_ops ops initial) = Z.of_nat (n mod 2)
    /\ (dir (run_ops ops initial) = CONTRACTING <-> Nat.Odd n).
Proof.
  destruct (halves_run ops initial 0%nat) as (n & C & D);
    [simpl; lra | reflexivity |].
  exists n. split; [exact C | split; [exact D |]].
  rewrite D. unfold CONTRACTING.
  pose proof (Nat.div_mod_eq n 2) as E.
  pose proof (Nat.mod_upper_bound n 2) as U.
  split.
  - intros H. exists (n / 2)%nat. lia.
  - intros [k K]. pose proof (Nat.div_mod_eq (2 * k + 1) 2).
    pose proof (Nat.mod_upper_bound (2 * k + 1) 2). subst n. lia.
Qed.

Lemma py_int_halves (n : nat) : py_int (INR n * 0.5) = Z.of_nat (n / 2).
Proof.
  pose proof (pos_INR n) as P.
  unfold py_int. destruct (Rle_dec 0 (INR n * 0.5)) as [_ | N]; [| lra].
  symmetry. apply Int_part_spec. rewrite <- INR_IZR_INZ.
  pose proof (Nat.div_mod_eq n 2) as E.
  pose proof (Nat.mod_upper_bound n 2) as U.
  assert (L : (2 * (n / 2) <= n)%nat) by lia.
  assert (H : (n < 2 * (n / 2) + 2)%nat) by lia.
  apply le_INR in L. apply lt_INR in H.
  rewrite plus_INR in H. rewrite mult_INR in L, H.
  change (INR 2) with 2 in L, H. lra.
Qed.

(** An update adds at most one half, so the count never exceeds half the
    number of updates since the start, resets included. *)
Theorem count_bounded_by_updates (ops : list TrackerOp) :
  count (run_ops ops initial) <= INR (count_updates ops) * 0.5.
Proof.
  assert (G : forall ops st, 0 <= count st ->
             0 <= count (run_ops ops st)
                <= count st + INR (count_updates ops) * 0.5).
  { clear ops. induction ops as [| op ops IH]; intros st P.
    - simpl. lra.
    - destruct op as [p |].
      + pose proof (update_count_mono p st) as M.
        pose proof (update_step p st) as S1.
        destruct (IH (update p st)) as [L U]; [lra |].
        change (run_ops (Update p :: ops) st)
          with (run_ops ops (update p st)).
        change (count_updates (Update p :: ops))
          with (S (count_updates ops)).
        rewrite S_INR. lra.
      + destruct (IH (reset st)) as [L U]; [simpl; lra |].
        change (run_ops (Reset :: ops) st) with (run_ops ops (reset st)).
        change (count_updates (Reset :: ops)) with (count_updates ops).
        simpl count in U. lra. }
  destruct (G ops initial) as [_ U]; [simpl; lra |].
  simpl count in U. lra.
Qed.

(** Feeding the same percentage twice in a row is the same as feeding it
    once, for every percentage and every state. *)
Theorem update_idempotent (p : R) (st : MainState) :
  update p (update p st) = update p st.
Proof.
  destruct (update_cases p st) as [(P & D & E) | [(P & D & E) | E]];
    rewrite !E; [| | reflexivity].
  - apply update_idle; simpl; [| lra]. intros [_ C]. discriminate C.
  - apply update_idle; simpl; [lra |]. intros [_ C]. discriminate C.
Qed.

Lemma is_boundary_false (p : R) :
  is_boundary p = false -> p <> 0 /\ p <> 100.
Proof.
  unfold is_boundary, Req_bool.
  destruct (Req_EM_T p 0), (Req_EM_T p 100); simpl; intros H;
    try discriminate H; auto.
Qed.

Lemma updates_filter (pers : list R) (st : MainState) :
  updates pers st = updates (filter is_boundary pers) st.
Proof.
  revert st. induction pers as [| p pers IH]; intros st; [reflexivity |].
  simpl filter. destruct (is_boundary p) eqn:B.
  - unfold updates. simpl. apply IH.
  - destruct (is_boundary_false p B) as [N0 N100].
    unfold updates. simpl. rewrite update_idle by tauto. apply IH.
Qed.

(** Only the percentages that sit on a boundary matter: dropping every
    percentage other than 0 and 100 from a sequence leaves the final
    state unchanged.  A sequence that never touches 0 or 100 counts
    nothing. *)
Theorem updates_ignore_interior (pers : list R) (st : MainState) :
  updates pers st = updates (filter is_boundary pers) st
  /\ (filter is_boundary pers = [] -> updates pers st = st).
Proof.
  split; [apply updates_filter |]. intros E. now rewrite updates_filter, E.
Qed.

(** Whatever a percentage sequence contains besides, if its boundary
    values read 100, 0, 100, 0, ... for n rounds and the tracker starts
    EXTENDING, the count grows by exactly n and the direction is
    EXTENDING again. *)
Theorem full_repetitions_count (n : nat) (pers : list R) (st : MainState) :
  dir st = EXTENDING ->
  filter is_boundary pers = full_reps n ->
  updates pers st = set_rep st (count st + INR n) EXTENDING.
Proof.
  intros D F. rewrite updates_filter, F.
  clear pers F. revert st D.
  induction n as [| n IH]; intros st D.
  - simpl. unfold set_rep. rewrite <- D. destruct st; simpl. f_equal. lra.
  - change (updates (full_reps (S n)) st)
      with (updates (full_reps n) (update 0 (update 100 st))).
    rewrite (update_up st D), update_down by reflexivity.
    rewrite IH by reflexivity. rewrite S_INR. unfold set_rep. simpl.
    f_equal. lra.
Qed.

(** Three repetitions with noise in between. *)
Lemma full_repetitions_count_witness :
  updates [30; 100; 99; 0; 100; 0; 50; 100; 0] initial
  = set_rep initial (count initial + INR 3) EXTENDING.
Proof.
  apply (full_repetitions_count 3); [reflexivity |].
  unfold is_boundary. simpl filter.
  repeat (rewrite ?(Req_bool_true 0 0), ?(Req_bool_true 100 100),
            ?(Req_bool_false 30 0), ?(Req_bool_false 30 100),
            ?(Req_bool_false 99 0), ?(Req_bool_false 99 100),
            ?(Req_bool_false 50 0), ?(Req_bool_false 50 100),
            ?(Req_bool_false 100 0), ?(Req_bool_false 0 100) by lra;
          simpl).
  reflexivity.
Defined.

(** A reset wipes the history: what ran before it has no influence on
    the state after it. *)
Theorem reset_forgets (ops1 ops2 : list TrackerOp) (st : MainState) :
  run_ops (ops1 ++ Reset :: ops2) st = run_ops ops2 (reset st).
Proof.
  rewrite run_ops_app.
  change (run_ops (Reset :: ops2) (run_ops ops1 st))
    with (run_ops ops2 (reset (run_ops ops1 st))).
  f_equal. unfold reset, set_rep.
  destruct (run_ops_frame ops1 st) as [-> ->]. reflexivity.
Qed.

(** ** findPosition *)

Lemma positions_nth (h w : Z) (lms : list NormalizedLandmark) (i : Z)
    (k : nat) (lm : NormalizedLandmark) :
  nth_error lms k = Some lm ->
  nth_error (positions h w i lms) k
  = Some (mkLandmark (i + Z.of_nat k) (py_int (nl_x lm * IZR w))
            (py_int (nl_y lm * IZR h))).
Proof.
  revert i k. induction lms as [| a lms IH]; intros i k E.
  - destruct k; discriminate E.
  - destruct k as [| k].
    + inversion E. subst. simpl. do 2 f_equal. lia.
    + simpl in E. simpl positions. simpl nth_error.
      rewrite (IH _ _ E). do 2 f_equal. lia.
Qed.

Lemma positions_length (h w : Z) (lms : list NormalizedLandmark) (i : Z) :
  List.length (positions h w i lms) = List.length lms.
Proof.
  revert i. induction lms as [| a lms IH]; intros i; simpl;
    [reflexivity | now rewrite IH].
Qed.

Lemma py_getitem_nth {A : Type} (l : list A) (k : nat) (a : A) :
  nth_error l k = Some a -> py_getitem l (Z.of_nat k) = Ret a.
Proof.
  intros E.
  destruct (py_getitem_nat l k) as (b & G & N).
  - apply nth_error_Some. congruence.
  - congruence.
Qed.

(** [findPosition] numbers the landmarks as they come: the list it
    returns is as long as mediapipe's, entry k is [[k, int(x * w),
    int(y * h)]] for the k-th landmark, and the list is the one kept in
    [self.lmList]. *)
Theorem findPosition_enumerates (lms : list NormalizedLandmark)
    (img : Image) (draw : bool) (k : nat) (lm : NormalizedLandmark) :
  nth_error lms k = Some lm ->
  let '(det, _, l) := findPosition (Some lms) img draw in
  py_getitem l (Z.of_nat k)
  = Ret (mkLandmark (Z.of_nat k) (py_int (nl_x lm * IZR (img_w img)))
           (py_int (nl_y lm * IZR (img_h img))))
  /\ List.length l = List.length lms
  /\ lmList det = l.
Proof.
  intros E. simpl. split; [| split; [apply positions_length | reflexivity]].
  apply py_getitem_nth. now rewrite (positions_nth _ _ _ _ _ _ E).
Qed.

(** The second of two landmarks gets the id 1. *)
Lemma findPosition_enumerates_witness :
  lm_id (mkLandmark 1 (py_int (0.5 * IZR 800)) (py_int (0.25 * IZR 600)))
  = 1%Z
  /\ py_getitem
       (snd (findPosition (Some [mkNorm 0 0; mkNorm 0.5 0.25])
               (mkImage 600 800 []) false)) 1
     = Ret (mkLandmark 1 (py_int (0.5 * IZR 800)) (py_int (0.25 * IZR 600))).
Proof.
  split; [reflexivity |].
  apply (findPosition_enumerates [mkNorm 0 0; mkNorm 0.5 0.25]
           (mkImage 600 800 []) false 1 (mkNorm 0.5 0.25)).
  reflexivity.
Defined.

Lemma py_int_nonneg (x : R) : 0 <= x -> IZR (py_int x) <= x < IZR (py_int x) + 1.
Proof.
  intros P. unfold py_int. destruct (Rle_dec 0 x) as [_ | N]; [| lra].
  destruct (base_Int_part x). lra.
Qed.

Lemma py_int_scale (x : R) (w : Z) :
  (0 <= x < 1 -> (0 < w)%Z -> (0 <= py_int (x * IZR w) < w)%Z)
  /\ (1 <= x -> (0 < w)%Z -> (w <= py_int (x * IZR w))%Z).
Proof.
  split.
  - intros X W. apply IZR_lt in W.
    destruct (py_int_nonneg (x * IZR w)) as [L U]; [nra |].
    split.
    + apply Z.lt_succ_r. apply lt_IZR. rewrite succ_IZR. nra.
    + apply lt_IZR. nra.
  - intros X W. apply IZR_lt in W.
    destruct (py_int_nonneg (x * IZR w)) as [L U]; [nra |].
    apply Z.lt_succ_r. apply lt_IZR. rewrite succ_IZR. nra.
Qed.

(** A landmark mediapipe places inside the frame (relative coordinates
    in [0, 1)) lands on a pixel of the image; nothing is clamped, so a
    landmark at or beyond the right or bottom edge lands outside it. *)
Theorem findPosition_pixels (lms : list NormalizedLandmark) (img : Image)
    (draw : bool) (k : nat) (lm : NormalizedLandmark) :
  nth_error lms k = Some lm ->
  (0 < img_w img)%Z -> (0 < img_h img)%Z ->
  exists l : Landmark,
    nth_error (snd (findPosition (Some lms) img draw)) k = Some l
    /\ (0 <= nl_x lm < 1 -> (0 <= lm_cx l < img_w img)%Z)
    /\ (0 <= nl_y lm < 1 -> (0 <= lm_cy l < img_h img)%Z)
    /\ (1 <= nl_x lm -> (img_w img <= lm_cx l)%Z)
    /\ (1 <= nl_y lm -> (img_h img <= lm_cy l)%Z).
Proof.
  intros E W H. eexists. split.
  - simpl. apply (positions_nth _ _ _ _ _ _ E).
  - split; [| split; [| split]]; intros X; now apply py_int_scale.
Qed.

(** A landmark in the middle of an 800 x 600 frame. *)
Lemma findPosition_pixels_witness :
  exists l : Landmark,
    nth_error (snd (findPosition (Some [mkNorm 0.5 0.5])
                      (mkImage 600 800 []) false)) 0 = Some l
    /\ (0 <= lm_cx l < 800)%Z.
Proof.
  destruct (findPosition_pixels [mkNorm 0.5 0.5] (mkImage 600 800 []) false
              0 (mkNorm 0.5 0.5)) as (l & E & X & _);
    [reflexivity | reflexivity | reflexivity |].
  exists l. split; [exact E |]. apply X. simpl. lra.
Defined.

(** Without a detected pose, or when [draw] is off, [findPosition]
    leaves the image alone; with [draw] on it paints one filled dot per
    landmark and nothing else.  Without a pose the list is empty. *)
Theorem findPosition_image (pose : option (list NormalizedLandmark))
    (img : Image) :
  snd (fst (findPosition pose img false)) = img
  /\ findPosition None img true = (mkDetector [], img, [])
  /\ (forall lms,
        exists dots,
          snd (fst (findPosition (Some lms) img true)) = paint img dots
          /\ List.length dots = List.length lms
          /\ Forall (fun op => exists c, op = Circle c 5 (255, 0, 255)%Z FILLED)
               dots).
Proof.
  split; [destruct pose; reflexivity | split; [reflexivity |]].
  intros lms. exists (position_dots (img_h img) (img_w img) lms).
  split; [reflexivity |].
  induction lms as [| lm lms [L F]]; simpl; [auto |].
  split; [now rewrite L |]. constructor; [eauto | exact F].
Qed.

(** ** findAngle: which ids it accepts *)

Lemma py_getitem_outside {A : Type} (l : list A) (i : Z) :
  ~ in_bounds l i -> py_getitem l i = Raise IndexError.
Proof.
  intros N. destruct (py_getitem l i) as [a | e] eqn:E.
  - exfalso. apply N. apply py_getitem_bounds. now exists a.
  - now rewrite (py_getitem_raises l i e E).
Qed.

Lemma in_bounds_dec {A : Type} (l : list A) (i : Z) :
  {in_bounds l i} + {~ in_bounds l i}.
Proof.
  unfold in_bounds.
  destruct (Z_le_dec (- Z.of_nat (List.length l)) i);
    destruct (Z_lt_dec i (Z.of_nat (List.length l))); (left; lia) || (right; lia).
Qed.

(** [findAngle] raises [IndexError] exactly when one of the three ids is
    not a valid Python index of the landmark list, that is, lies outside
    [-len, len); the draw flag plays no part in it. *)
Theorem findAngle_IndexError_iff (det : poseDetector) (img : Image)
    (p1 p2 p3 : Z) (draw : bool) :
  findAngle det img p1 p2 p3 draw = Raise IndexError
  <-> ~ (in_bounds (lmList det) p1 /\ in_bounds (lmList det) p2
         /\ in_bounds (lmList det) p3).
Proof.
  split.
  - intros E (B1 & B2 & B3).
    apply py_getitem_bounds in B1 as [l1 E1].
    apply py_getitem_bounds in B2 as [l2 E2].
    apply py_getitem_bounds in B3 as [l3 E3].
    rewrite (findAngle_found det img p1 p2 p3 draw l1 l2 l3 E1 E2 E3) in E.
    discriminate E.
  - intros N. apply findAngle_missing.
    destruct (in_bounds_dec (lmList det) p1) as [B1 | B1];
      [| left; eexists; now apply py_getitem_outside].
    destruct (in_bounds_dec (lmList det) p2) as [B2 | B2];
      [| right; left; eexists; now apply py_getitem_outside].
    destruct (in_bounds_dec (lmList det) p3) as [B3 | B3];
      [tauto | right; right; eexists; now apply py_getitem_outside].
Qed.

Lemma py_getitem_index {A : Type} (l : list A) (i : Z) :
  in_bounds l i -> py_getitem l i = py_getitem l (py_index l i).
Proof.
  unfold in_bounds, py_index, py_getitem. intros B.
  destruct (Z.ltb_spec i 0) as [N | N]; [| now rewrite (proj2 (Z.ltb_ge i 0))].
  destruct (Z.ltb_spec (i + Z.of_nat (List.length l)) 0) as [M | M];
    [lia | reflexivity].
Qed.

(** A negative id counts from the end of the list: for ids within
    bounds, [findAngle] does what it does on the ids [len + id] for the
    negative ones, so id -1 is the last landmark. *)
Theorem findAngle_negative_ids (det : poseDetector) (img : Image)
    (p1 p2 p3 : Z) (draw : bool) :
  in_bounds (lmList det) p1 ->
  in_bounds (lmList det) p2 ->
  in_bounds (lmList det) p3 ->
  findAngle det img p1 p2 p3 draw
  = findAngle det img (py_index (lmList det) p1) (py_index (lmList det) p2)
      (py_index (lmList det) p3) draw
  /\ (0 <= py_index (lmList det) p1 < Z.of_nat (List.length (lmList det)))%Z
  /\ (p1 < 0 ->
      py_index (lmList det) p1 = Z.of_nat (List.length (lmList det)) + p1)%Z.
Proof.
  intros B1 B2 B3. split; [| split].
  - unfold findAngle.
    now rewrite <- !py_getitem_index by assumption.
  - unfold in_bounds, py_index in *. destruct (Z.ltb_spec p1 0); lia.
  - intros N. unfold py_index. destruct (Z.ltb_spec p1 0); lia.
Qed.

(** Ids -1, -2, -3 on a list of three landmarks. *)
Lemma findAngle_negative_ids_witness :
  findAngle (mkDetector [mkLandmark 0 100 0; mkLandmark 1 0 0;
                         mkLandmark 2 0 (-100)])
    (mkImage 600 800 []) (-3) (-2) (-1) false
  = findAngle (mkDetector [mkLandmark 0 100 0; mkLandmark 1 0 0;
                           mkLandmark 2 0 (-100)])
      (mkImage 600 800 []) 0 1 2 false.
Proof.
  apply (findAngle_negative_ids
           (mkDetector [mkLandmark 0 100 0; mkLandmark 1 0 0;
                        mkLandmark 2 0 (-100)])
           (mkImage 600 800 []) (-3) (-2) (-1) false);
    unfold in_bounds; simpl; lia.
Defined.

(** ** findAngle: the geometry of the angle *)







Lemma degrees_PI (k : R) : degrees (k * PI) = k * 180.
Proof. pose proof PI_RGT_0. unfold degrees. field. lra. Qed.


Section AngleOfThree.

Variables (det : poseDetector) (img : Image) (draw : bool).
Variables (l1 l2 l3 : Landmark).

(** The angle in terms of the difference of the two ray directions,
    the rays running from the vertex [l2]. *)
Lemma findAngle_delta (p1 p2 p3 : Z) (delta : R) :
  py_getitem (lmList det) p1 = Ret l1 ->
  py_getitem (lmList det) p2 = Ret l2 ->
  py_getitem (lmList det) p3 = Ret l3 ->
  atan2 (IZR (lm_cy l3) - IZR (lm_cy l2)) (IZR (lm_cx l3) - IZR (lm_cx l2))
  - atan2 (IZR (lm_cy l1) - IZR (lm_cy l2)) (IZR (lm_cx l1) - IZR (lm_cx l2))
  = delta ->
  returned (findAngle det img p1 p2 p3 draw)
  = Ret (if Rlt_dec (degrees delta) 0 then degrees delta + 360
         else degrees delta).
Proof.
  intros E1 E2 E3 D.
  rewrite (findAngle_found det img p1 p2 p3 draw l1 l2 l3 E1 E2 E3).
  unfold returned, Spec.computeAngle, point_of. simpl. now rewrite D.
Qed.

End AngleOfThree.





Lemma py_getitem_map {A B : Type} (f : A -> B) (l : list A) (i : Z) :
  py_getitem (map f l) i
  = match py_getitem l i with
    | Ret a => Ret (f a)
    | Raise e => Raise e
    end.
Proof.
  unfold py_getitem. rewrite length_map.
  destruct (_ && _); [| reflexivity].
  rewrite nth_error_map. now destruct (nth_error l _).
Qed.

(** The angle does not depend on where in the image the joint is:
    moving every landmark by the same number of pixels changes neither
    the angle returned nor the ids that are accepted. *)
Theorem findAngle_translation (det : poseDetector) (img : Image)
    (p1 p2 p3 : Z) (draw : bool) (dx dy : Z) :
  returned (findAngle (mkDetector (map (shift_landmark dx dy) (lmList det)))
              img p1 p2 p3 draw)
  = returned (findAngle det img p1 p2 p3 draw).
Proof.
  unfold findAngle. simpl lmList. rewrite !py_getitem_map.
  destruct (py_getitem (lmList det) p1) as [l1 |]; [| reflexivity].
  destruct (py_getitem (lmList det) p2) as [l2 |]; [| reflexivity].
  destruct (py_getitem (lmList det) p3) as [l3 |]; [| reflexivity].
  simpl.
  replace (lm_cy l3 + dy - (lm_cy l2 + dy))%Z with (lm_cy l3 - lm_cy l2)%Z
    by lia.
  replace (lm_cx l3 + dx - (lm_cx l2 + dx))%Z with (lm_cx l3 - lm_cx l2)%Z
    by lia.
  replace (lm_cy l1 + dy - (lm_cy l2 + dy))%Z with (lm_cy l1 - lm_cy l2)%Z
    by lia.
  replace (lm_cx l1 + dx - (lm_cx l2 + dx))%Z with (lm_cx l1 - lm_cx l2)%Z
    by lia.
  reflexivity.
Qed.









(** ** The repetition block, seen from the angle *)

Lemma per_of_angle_full (a : R) :
  (per_of_angle a = 100 <-> 310 <= a) /\ (per_of_angle a = 0 <-> a <= 210).
Proof.
  destruct (Rlt_dec a 210) as [L | L].
  { rewrite per_of_angle_below by trivial. split; split; lra. }
  destruct (Rlt_dec 310 a) as [U | U].
  { rewrite per_of_angle_above by trivial. split; split; lra. }
  rewrite per_of_angle_within by lra. unfold Spec.remap_unclamped.
  split; split; lra.
Qed.

Lemma per_of_angle_range (a : R) : 0 <= per_of_angle a <= 100.
Proof.
  destruct (Rlt_dec a 210) as [L | L].
  { rewrite per_of_angle_below by trivial. lra. }
  destruct (Rlt_dec 310 a) as [U | U].
  { rewrite per_of_angle_above by trivial. lra. }
  rewrite per_of_angle_within by lra. unfold Spec.remap_unclamped. lra.
Qed.

(** What the block does on a landmark list, by its length. *)
Lemma rep_block_cases (det : poseDetector) (img : Image) (st : MainState) :
  (lmList det = [] -> rep_block det img (lmList det) st = Ret (st, None))
  /\ ((0 < List.length (lmList det) < 17)%nat ->
        rep_block det img (lmList det) st = Raise IndexError)
  /\ ((17 <= List.length (lmList det))%nat ->
        exists angle : R,
          returned (findAngle det img 12 14 16 false) = Ret angle
          /\ 0 <= angle < 360
          /\ rep_block det img (lmList det) st
             = Ret (update (per_of_angle angle) st,
                    Some (mkOverlay angle (per_of_angle angle)
                            (py_int (np_interp (per_of_angle angle) (0, 100)
                                       (0, 540) / 540 * 540))
                            (py_int (count (update (per_of_angle angle) st)))
                            (py_int (per_of_angle angle))
                            (if Rle_bool (per_of_angle angle) 50
                             then primary_color else secondary_color)))).
Proof.
  split; [| split].
  - intros ->. reflexivity.
  - intros [P L].
    rewrite rep_block_nonempty by (destruct (lmList det); [simpl in P; lia | discriminate]).
    rewrite (findAngle_missing det img 12 14 16 false); [reflexivity |].
    right; right. eexists. apply (py_getitem_past_end (lmList det) 16). lia.
  - intros L.
    destruct (py_getitem_nat (lmList det) 12) as (l1 & E1 & _); [lia |].
    destruct (py_getitem_nat (lmList det) 14) as (l2 & E2 & _); [lia |].
    destruct (py_getitem_nat (lmList det) 16) as (l3 & E3 & _); [lia |].
    change (Z.of_nat 12) with 12%Z in E1. change (Z.of_nat 14) with 14%Z in E2.
    change (Z.of_nat 16) with 16%Z in E3.
    exists (Spec.computeAngle (point_of l1) (point_of l2) (point_of l3)).
    rewrite rep_block_nonempty
      by (destruct (lmList det); [simpl in L; lia | discriminate]).
    rewrite (findAngle_found det img 12 14 16 false l1 l2 l3 E1 E2 E3).
    split; [reflexivity | split; [apply computeAngle_range | reflexivity]].
Qed.

(** Because the remap clamps, the exact tests of the tracker are
    threshold tests on the elbow angle: with at least 17 landmarks the
    block counts a half repetition exactly when the angle is at least
    310 while EXTENDING or at most 210 while CONTRACTING, and changes
    nothing for any other angle. *)
Theorem rep_block_thresholds (det : poseDetector) (img : Image)
    (st : MainState) :
  (17 <= List.length (lmList det))%nat ->
  exists (angle : R) (st' : MainState) (ov : Overlay),
    returned (findAngle det img 12 14 16 false) = Ret angle
    /\ rep_block det img (lmList det) st = Ret (st', Some ov)
    /\ (310 <= angle -> dir st = EXTENDING ->
          st' = set_rep st (count st + 0.5) CONTRACTING)
    /\ (angle <= 210 -> dir st = CONTRACTING ->
          st' = set_rep st (count st + 0.5) EXTENDING)
    /\ (~ (310 <= angle /\ dir st = EXTENDING) ->
        ~ (angle <= 210 /\ dir st = CONTRACTING) -> st' = st).
Proof.
  intros L.
  destruct (rep_block_cases det img st) as (_ & _ & C).
  destruct (C L) as (angle & F & _ & B).
  destruct (per_of_angle_full angle) as [P100 P0].
  exists angle. do 2 eexists. split; [exact F | split; [exact B |]].
  split; [| split].
  - intros A D. rewrite (proj2 P100 A). now apply update_up.
  - intros A D. rewrite (proj2 P0 A). now apply update_down.
  - intros N1 N2. apply update_idle; tauto.
Qed.

Lemma py_int_within (x : R) (n : Z) :
  0 <= x <= IZR n -> (0 <= py_int x <= n)%Z.
Proof.
  intros [L U]. destruct (py_int_nonneg x L) as [A B]. split.
  - apply Z.lt_succ_r. apply lt_IZR. rewrite succ_IZR. lra.
  - apply le_IZR. lra.
Qed.

Lemma bar_fill_range (per : R) :
  0 <= per <= 100 -> 0 <= np_interp per (0, 100) (0, 540) <= 540.
Proof. intros H. unfold np_interp. float_cases. Qed.

(** Whatever the angle, what the block displays stays in range: the bar
    is filled by 0 to 540 pixels, never past its outline; the percentage
    label reads 0 to 100; the angle lies between 0 and 360; and the label
    is in the primary colour exactly when the angle is at most 260. *)
Theorem rep_block_overlay_range (det : poseDetector) (img : Image)
    (l : list Landmark) (st st' : MainState) (ov : Overlay) :
  rep_block det img l st = Ret (st', Some ov) ->
  (0 <= ov_filled_part ov <= 540)%Z
  /\ (0 <= ov_per_label ov <= 100)%Z
  /\ 0 <= ov_angle ov <= 360
  /\ ov_per ov = per_of_angle (ov_angle ov)
  /\ ov_reps ov = py_int (count st')
  /\ (ov_color ov = primary_color <-> ov_angle ov <= 260).
Proof.
  unfold rep_block. destruct (negb _); [| discriminate].
  destruct (findAngle det img 12 14 16 false) as [[a i] |] eqn:F;
    cbn [bind fst]; [| discriminate].
  intros E. inversion E. subst st' ov. clear E.
  cbn [ov_filled_part ov_per_label ov_angle ov_per ov_reps ov_color fst].
  pose proof (per_of_angle_range a) as P.
  pose proof (bar_fill_range _ P) as B.
  assert (A : 0 <= a < 360).
  { unfold findAngle in F.
    destruct (py_getitem (lmList det) 12) as [l1 |]; [| discriminate].
    destruct (py_getitem (lmList det) 14) as [l2 |]; [| discriminate].
    destruct (py_getitem (lmList det) 16) as [l3 |]; [| discriminate].
    simpl in F. inversion F.
    pose proof (findAngle_arith l1 l2 l3) as Q. simpl in Q. rewrite Q.
    apply computeAngle_range. }
  split; [apply py_int_within; unfold np_interp in B; lra |].
  split; [apply py_int_within; lra |].
  split; [lra |]. split; [reflexivity |]. split; [reflexivity |].
  unfold Rle_bool. destruct (Rle_dec (per_of_angle a) 50) as [H | H].
  - split; [intros _ | reflexivity].
    destruct (Rlt_dec 310 a) as [U | U];
      [rewrite per_of_angle_above in H by trivial; lra |].
    destruct (Rlt_dec a 210) as [L | L]; [lra |].
    rewrite per_of_angle_within in H by lra.
    unfold Spec.remap_unclamped in H. lra.
  - split; [intros C; discriminate C | intros C; exfalso; apply H].
    destruct (Rlt_dec a 210) as [L | L];
      [rewrite per_of_angle_below by trivial; lra |].
    rewrite per_of_angle_within by lra. unfold Spec.remap_unclamped. lra.
Qed.

(** ** One frame and the whole loop *)

Lemma findPosition_self (pose : option (list NormalizedLandmark))
    (img : Image) (draw : bool) :
  lmList (fst (fst (findPosition pose img draw)))
  = snd (findPosition pose img draw).
Proof. destruct pose; reflexivity. Qed.

Lemma rep_block_step (det : poseDetector) (img : Image) (l : list Landmark)
    (st st' : MainState) (ov : option Overlay) :
  rep_block det img l st = Ret (st', ov) ->
  st' = st \/ exists p, st' = update p st.
Proof.
  unfold rep_block. destruct (negb _).
  - destruct (findAngle det img 12 14 16 false) as [r |]; cbn [bind];
      [| discriminate].
    intros E. inversion E. right. eauto.
  - intros E. inversion E. now left.
Qed.

Lemma rep_block_ptime (det : poseDetector) (img : Image) (l : list Landmark)
    (st st' : MainState) (ov : option Overlay) :
  rep_block det img l st = Ret (st', ov) -> ptime st' = ptime st.
Proof.
  intros E. destruct (rep_block_step _ _ _ _ _ _ E) as [-> | [p ->]];
    [reflexivity | apply update_frame].
Qed.

(** How a frame ends, by the number of landmarks and the clock. *)
Lemma process_frame_cases (inp : FrameInput) (st : MainState) :
  let n := List.length (frame_landmarks inp) in
  ((0 < n < 17)%nat -> process_frame inp st = Raise IndexError)
  /\ ((n = 0 \/ 17 <= n)%nat -> ctime inp = ptime st ->
        process_frame inp st = Raise ZeroDivisionError)
  /\ ((n = 0 \/ 17 <= n)%nat -> ctime inp <> ptime st ->
        exists st' ov,
          process_frame inp st
          = Ret (st', ov, py_int (1 / (ctime inp - ptime st)))
          /\ ptime st' = ctime inp
          /\ lmList (detector st') = frame_landmarks inp
          /\ (same_rep st' st \/ exists p, same_rep st' (update p st))).
Proof.
  unfold frame_landmarks, process_frame.
  pose proof (findPosition_self (pose_landmarks inp) (frame inp) false) as S.
  destruct (findPosition (pose_landmarks inp) (frame inp) false)
    as [[det img] l].
  simpl in S. subst l. cbn [snd].
  destruct (rep_block_cases det img st) as (C0 & C1 & C2).
  split; [| split].
  - intros H. now rewrite (C1 H).
  - intros H T.
    assert (exists st1 ov, rep_block det img (lmList det) st = Ret (st1, ov))
      as (st1 & ov & B).
    { destruct H as [H | H].
      - destruct (lmList det); [| discriminate H]. rewrite C0 by reflexivity.
        eauto.
      - destruct (C2 H) as (a & _ & _ & ->). eauto. }
    rewrite B. cbn [bind]. rewrite (rep_block_ptime _ _ _ _ _ _ B).
    rewrite Req_bool_true by lra. reflexivity.
  - intros H T.
    assert (exists st1 ov, rep_block det img (lmList det) st = Ret (st1, ov))
      as (st1 & ov & B).
    { destruct H as [H | H].
      - destruct (lmList det); [| discriminate H]. rewrite C0 by reflexivity.
        eauto.
      - destruct (C2 H) as (a & _ & _ & ->). eauto. }
    rewrite B. cbn [bind]. rewrite (rep_block_ptime _ _ _ _ _ _ B).
    rewrite Req_bool_false by lra.
    do 2 eexists. split; [reflexivity |].
    split; [reflexivity | split; [reflexivity |]].
    unfold same_rep. cbn [count dir].
    destruct (rep_block_step _ _ _ _ _ _ B) as [-> | [p ->]]; eauto.
Qed.

(** The two ways a frame can fail, and no others: [IndexError] exactly
    when the pose has between 1 and 16 landmarks, [ZeroDivisionError]
    exactly when it has none or at least 17 and the clock reads the same
    as at the frame before.  In every other case the frame goes through,
    stores the new clock value and leaves the landmark list with the
    detector. *)
Theorem process_frame_failures (inp : FrameInput) (st : MainState) :
  let n := List.length (frame_landmarks inp) in
  (process_frame inp st = Raise IndexError <-> (0 < n < 17)%nat)
  /\ (process_frame inp st = Raise ZeroDivisionError
      <-> (n = 0 \/ 17 <= n)%nat /\ ctime inp = ptime st)
  /\ ((exists st' ov fps,
         process_frame inp st = Ret (st', ov, fps)
         /\ ptime st' = ctime inp
         /\ lmList (detector st') = frame_landmarks inp)
      <-> (n = 0 \/ 17 <= n)%nat /\ ctime inp <> ptime st).
Proof.
  intros n. destruct (process_frame_cases inp st) as (C1 & C2 & C3).
  fold n in C1, C2, C3.
  assert (K : (0 < n < 17)%nat \/ (n = 0 \/ 17 <= n)%nat) by lia.
  destruct K as [K | K].
  - rewrite (C1 K). split; [| split].
    + split; auto.
    + split; [discriminate | lia].
    + split; [intros (? & ? & ? & E & _); discriminate E | lia].
  - destruct (Req_EM_T (ctime inp) (ptime st)) as [T | T].
    + rewrite (C2 K T). split; [| split].
      * split; [discriminate | lia].
      * split; auto.
      * split; [intros (? & ? & ? & E & _); discriminate E | tauto].
    + destruct (C3 K T) as (st' & ov & E & P & L & _). rewrite E.
      split; [| split].
      * split; [discriminate | lia].
      * split; [discriminate | tauto].
      * split; [auto |]. intros _. do 3 eexists. eauto.
Qed.

Lemma handle_keys_ptime (inp : FrameInput) (st : MainState) :
  ptime (fst (handle_keys inp st)) = ptime st.
Proof. unfold handle_keys. now destruct (key_is (key1 inp) ord_r). Qed.

(** The loop gets through any run of frames in which every pose has no
    or at least 17 landmarks and the clock moves on from frame to frame:
    [main] then ends without an exception. *)
Theorem main_loop_steady (inps : list FrameInput) (st : MainState) :
  steady (ptime st) inps -> exists st', main_loop inps st = Ret st'.
Proof.
  revert st. induction inps as [| inp rest IH]; intros st S.
  - now exists st.
  - destruct S as (N & T & S). simpl main_loop. unfold loop_body.
    destruct (ret inp); [| now exists st].
    destruct (process_frame_cases inp st) as (_ & _ & C).
    destruct C as (st1 & ov & E & P & _);
      [destruct N as [-> | N]; [now left | now right] | lra |].
    rewrite E. cbn [bind snd fst].
    destruct (snd (handle_keys inp st1)); [| eauto].
    apply IH. now rewrite handle_keys_ptime, P.
Qed.

(** Two frames without a pose, a second apart. *)
Lemma main_loop_steady_witness :
  exists st',
    main_loop [mkInput true (mkImage 600 800 []) None 1 (-1) (-1);
               mkInput true (mkImage 600 800 []) None 2 (-1) (-1)]
      initial = Ret st'.
Proof.
  apply (main_loop_steady
           [mkInput true (mkImage 600 800 []) None 1 (-1) (-1);
            mkInput true (mkImage 600 800 []) None 2 (-1) (-1)] initial).
  simpl. repeat split; try (left; reflexivity); lra.
Defined.

Lemma process_frame_ret (inp : FrameInput) (st st' : MainState)
    (ov : option Overlay) (fps : Z) :
  process_frame inp st = Ret (st', ov, fps) ->
  ctime inp <> ptime st
  /\ ptime st' = ctime inp
  /\ fps = py_int (1 / (ctime inp - ptime st))
  /\ (same_rep st' st \/ exists p, same_rep st' (update p st)).
Proof.
  intros E. destruct (process_frame_cases inp st) as (C1 & C2 & C3).
  set (n := List.length (frame_landmarks inp)) in *.
  assert (K : (0 < n < 17)%nat \/ (n = 0 \/ 17 <= n)%nat) by lia.
  destruct K as [K | K]; [rewrite (C1 K) in E; discriminate E |].
  destruct (Req_EM_T (ctime inp) (ptime st)) as [T | T];
    [rewrite (C2 K T) in E; discriminate E |].
  destruct (C3 K T) as (st1 & ov1 & E1 & P & _ & S).
  rewrite E1 in E. inversion E. subst. auto.
Qed.

Lemma loop_body_count (inp : FrameInput) (st st' : MainState) (go : bool) :
  loop_body inp st = Ret (st', go) ->
  0 <= count st -> 0 <= count st' <= count st + 0.5.
Proof.
  unfold loop_body. destruct (ret inp).
  2:{ intros E. inversion E. lra. }
  destruct (process_frame inp st) as [[[st1 ov] fps] |] eqn:P; cbn [bind];
    [| discriminate].
  intros E P0. inversion E. subst. clear E.
  destruct (process_frame_ret _ _ _ _ _ P) as (_ & _ & _ & S).
  assert (B : 0 <= count st1 <= count st + 0.5).
  { destruct S as [[C _] | [p [C _]]]; rewrite C; [lra |].
    pose proof (update_count_mono p st). pose proof (update_step p st). lra. }
  unfold handle_keys. destruct (key_is (key1 inp) ord_r); simpl; lra.
Qed.

(** Over a whole run of [main]: each frame adds at most one half, so the
    count is at most half the number of frames; it is a whole number of
    halves whose parity is the direction flag; and the label shows the
    completed repetitions. *)
Theorem main_counts (inps : list FrameInput) (st : MainState) :
  main inps = Ret st ->
  0 <= count st <= INR (List.length inps) * 0.5
  /\ exists n : nat,
       count st = INR n * 0.5
       /\ dir st = Z.of_nat (n mod 2)
       /\ py_int (count st) = Z.of_nat (n / 2).
Proof.
  intros E. split.
  - unfold main in E.
    assert (G : forall inps s s', main_loop inps s = Ret s' -> 0 <= count s ->
                 0 <= count s' <= count s + INR (List.length inps) * 0.5).
    { clear. induction inps as [| inp rest IH]; intros s s' E P.
      - inversion E. subst. simpl. lra.
      - simpl main_loop in E.
        destruct (loop_body inp s) as [[s1 go] |] eqn:L; cbn [bind] in E;
          [| discriminate].
        destruct (loop_body_count _ _ _ _ L P) as [P1 U1].
        cbn [fst snd] in E.
        change (List.length (inp :: rest)) with (S (List.length rest)).
        rewrite S_INR. pose proof (pos_INR (List.length rest)).
        destruct go.
        + destruct (IH _ _ E P1). lra.
        + inversion E. subst. lra. }
    destruct (G inps initial st E) as [L U]; simpl; [lra |].
    simpl count in U. lra.
  - destruct (main_loop_ops _ _ _ E) as [ops [C D]].
    destruct (halves_run ops initial 0%nat) as (n & Cn & Dn);
      [simpl; lra | reflexivity |].
    exists n. rewrite C, D. split; [exact Cn | split; [exact Dn |]].
    rewrite Cn. apply py_int_halves.
Qed.

(** The FPS label shows 1 / dt rounded down, where dt is the time since
    the frame before: n * dt <= 1 < (n + 1) * dt.  When more than a
    second has passed it shows 0, as on the first frame, where the clock
    is compared with 0. *)
Theorem fps_label (inp : FrameInput) (st st' : MainState)
    (ov : option Overlay) (fps : Z) :
  process_frame inp st = Ret (st', ov, fps) ->
  ptime st < ctime inp ->
  IZR fps * (ctime inp - ptime st) <= 1
    < (IZR fps + 1) * (ctime inp - ptime st)
  /\ (0 <= fps)%Z
  /\ (1 < ctime inp - ptime st -> fps = 0%Z).
Proof.
  intros E T. destruct (process_frame_ret _ _ _ _ _ E) as (_ & _ & -> & _).
  set (dt := ctime inp - ptime st). assert (D : 0 < dt) by (unfold dt; lra).
  assert (I : 0 < 1 / dt) by (apply Rdiv_lt_0_compat; lra).
  assert (Q : 1 / dt * dt = 1) by (field; lra).
  destruct (py_int_nonneg (1 / dt)) as [L U]; [lra |].
  assert (P : (0 <= py_int (1 / dt))%Z).
  { apply Z.lt_succ_r. apply lt_IZR. rewrite succ_IZR. lra. }
  split; [split; nra | split; [exact P |]].
  intros B. assert (S1 : 1 / dt < 1) by nra.
  assert (S2 : IZR (py_int (1 / dt)) < 1) by lra.
  apply lt_IZR in S2. lia.
Qed.

(** The first frame, a long time after the epoch. *)
Lemma fps_label_witness :
  exists fps : Z,
    process_frame (mkInput true (mkImage 600 800 []) None 1000 (-1) (-1))
      initial
    = Ret (mkState 0 0 1000 (mkDetector []), None, fps)
    /\ fps = 0%Z.
Proof.
  destruct (process_frame_cases
              (mkInput true (mkImage 600 800 []) None 1000 (-1) (-1)) initial)
    as (_ & _ & C).
  destruct C as (st' & ov & E & _); [now left | simpl; lra |].
  assert (E' := E). unfold process_frame in E'. simpl in E'.
  rewrite Req_bool_false in E' by lra. inversion E'. subst st' ov.
  eexists. split; [exact E |].
  apply (fps_label _ _ _ _ _ E); simpl; lra.
Defined.

(** ** Keys and the end of the loop *)

Lemma key_is_mod (key code : Z) :
  key_is key code = (key mod 256 =? code)%Z.
Proof.
  unfold key_is. change 255%Z with (Z.ones 8).
  now rewrite Z.land_ones by lia.
Qed.

(** The key code is compared modulo 256.  The reset reads the first
    [waitKey] only and the quit test the second only, so a 'q' that
    arrives at the first poll, or an 'r' at the second, is lost; and
    with no key pressed (both polls return -1) nothing changes and the
    loop goes on. *)
Theorem handle_keys_polls (inp : FrameInput) (st : MainState) :
  fst (handle_keys inp st)
  = (if (key1 inp mod 256 =? 114)%Z then reset st else st)
  /\ snd (handle_keys inp st) = negb (key2 inp mod 256 =? 113)%Z
  /\ (key1 inp = ord_q -> key2 inp = ord_r -> handle_keys inp st = (st, true))
  /\ (key1 inp = (-1)%Z -> key2 inp = (-1)%Z ->
      handle_keys inp st = (st, true)).
Proof.
  unfold handle_keys. rewrite !key_is_mod. unfold ord_r, ord_q.
  split; [reflexivity | split; [reflexivity | split]];
    intros -> ->; reflexivity.
Qed.

(** Frames that come after the loop has stopped are never looked at:
    once the camera fails to deliver, or 'q' is read at the second poll,
    or the frame raises, the rest of the input has no influence on the
    outcome.  A failed read returns the state untouched. *)
Theorem main_loop_stops (inp : FrameInput) (rest rest' : list FrameInput)
    (st : MainState) :
  (ret inp = false -> main_loop (inp :: rest) st = Ret st)
  /\ ((key2 inp mod 256 = 113)%Z ->
        main_loop (inp :: rest) st = main_loop (inp :: rest') st)
  /\ (forall e, loop_body inp st = Raise e ->
        main_loop (inp :: rest) st = Raise e).
Proof.
  split; [| split].
  - intros R. simpl. unfold loop_body. now rewrite R.
  - intros Q. simpl. unfold loop_body. destruct (ret inp); [| reflexivity].
    destruct (process_frame inp st) as [[[st1 ov] fps] |]; [| reflexivity].
    cbn [bind]. unfold handle_keys. rewrite (key_is_mod (key2 inp)).
    unfold ord_q. rewrite (proj2 (Z.eqb_eq _ _) Q). reflexivity.
  - intros e E. simpl. now rewrite E.
Qed.

(** ** The drawing helpers *)

Lemma Int_part_mono (x y : R) : x <= y -> (Int_part x <= Int_part y)%Z.
Proof.
  intros H. destruct (base_Int_part x) as [A _].
  destruct (base_Int_part y) as [_ B].
  apply Z.lt_succ_r. apply lt_IZR. rewrite succ_IZR. lra.
Qed.

Lemma py_int_mono (x y : R) : x <= y -> (py_int x <= py_int y)%Z.
Proof.
  intros H. unfold py_int.
  destruct (Rle_dec 0 x) as [X | X]; destruct (Rle_dec 0 y) as [Y | Y];
    try lra.
  - now apply Int_part_mono.
  - assert (A : (0 <= Int_part (- x))%Z).
    { replace 0%Z with (Int_part 0) by (symmetry; apply Int_part_spec; lra).
      apply Int_part_mono. lra. }
    assert (B : (0 <= Int_part y)%Z).
    { replace 0%Z with (Int_part 0) by (symmetry; apply Int_part_spec; lra).
      apply Int_part_mono. lra. }
    lia.
  - assert (A : (Int_part (- y) <= Int_part (- x))%Z)
      by (apply Int_part_mono; lra).
    lia.
Qed.

Lemma py_int_IZR (z : Z) : py_int (IZR z) = z.
Proof.
  unfold py_int. destruct (Rle_dec 0 (IZR z)).
  - symmetry. apply Int_part_spec. lra.
  - rewrite <- opp_IZR.
    replace (Int_part (IZR (- z))) with (- z)%Z
      by (apply Int_part_spec; lra).
    lia.
Qed.

(** The bar is filled in proportion and without clamping: with a zero
    [max_value] the call raises and paints nothing; for a positive one
    the filled width stays within the outline as long as 0 <= value <=
    max_value, is the whole width at value = max_value, grows with the
    value, and runs past the outline for larger values. *)
Theorem draw_progress_bar_fill (frame : Image) (value : R)
    (max_value : Z) (pos : Z * Z) (size : Z) (color : Color)
    (thickness : Z) :
  (max_value = 0%Z ->
     exists e : PyExn,
       draw_progress_bar frame value max_value pos size color thickness
       = Raise e)
  /\ ((0 < max_value)%Z -> (0 <= size)%Z ->
      exists f : Z,
        draw_progress_bar frame value max_value pos size color thickness
        = Ret (paint frame
                 [ Rectangle (fst pos, snd pos)
                     (fst pos + size, snd pos + thickness)%Z color 2;
                   Rectangle (fst pos, snd pos)
                     (fst pos + f, snd pos + thickness)%Z color (-1) ])
        /\ (0 <= value <= IZR max_value -> (0 <= f <= size)%Z)
        /\ (value = IZR max_value -> f = size)
        /\ (IZR max_value <= value -> (size <= f)%Z)
        /\ (forall value' f',
              value <= value' ->
              filled_part value' max_value size = Ret f' -> (f <= f')%Z)).
Proof.
  unfold draw_progress_bar, filled_part. split.
  - intros ->. now exists ZeroDivisionError.
  - intros M S. destruct (Z.eqb_spec max_value 0) as [E | _]; [lia |].
    cbn [bind]. eexists. split; [reflexivity |].
    apply IZR_lt in M. apply IZR_le in S.
    assert (Full : IZR max_value / IZR max_value * IZR size = IZR size)
      by (field; lra).
    assert (Mono : forall v v', v <= v' ->
               v / IZR max_value * IZR size
               <= v' / IZR max_value * IZR size).
    { intros v v' H. unfold Rdiv.
      assert (0 < / IZR max_value) by (apply Rinv_0_lt_compat; lra).
      nra. }
    split; [| split; [| split]].
    + intros [L U]. apply py_int_within.
      pose proof (Mono 0 value L) as A. pose proof (Mono _ _ U) as B.
      replace (0 / IZR max_value * IZR size) with 0 in A by (field; lra).
      lra.
    + intros ->. rewrite Full. apply py_int_IZR.
    + intros H. rewrite <- (py_int_IZR size) at 1. apply py_int_mono.
      pose proof (Mono _ _ H) as B. lra.
    + intros v' f' H E. inversion E. apply py_int_mono. now apply Mono.
Qed.

(** Half of a 540 pixel bar. *)
Lemma draw_progress_bar_fill_witness :
  exists f : Z,
    draw_progress_bar (mkImage 600 800 []) 270 540 (30, 560)%Z 540
      (100, 255, 100)%Z 20
    = Ret (paint (mkImage 600 800 [])
             [ Rectangle (30, 560)%Z (570, 580)%Z (100, 255, 100)%Z 2;
               Rectangle (30, 560)%Z (30 + f, 580)%Z (100, 255, 100)%Z (-1) ])
    /\ (0 <= f <= 540)%Z.
Proof.
  destruct (draw_progress_bar_fill (mkImage 600 800 []) 270 540 (30, 560)%Z
              540 (100, 255, 100)%Z 20) as [_ H].
  destruct H as (f & E & B & _); [lia | lia |].
  exists f. split; [exact E | apply B; lra].
Defined.

Section Labels.

Variable getTextSize : string -> Z -> Z -> (Z * Z) * Z.

Lemma draw_label_paint (frame : Image) (text : string) (x y : Z)
    (font_scale thickness : Z) (color bg_color : Color) (padding : Z) :
  exists c1 c2 : Z * Z,
    draw_label getTextSize frame text (x, y) font_scale thickness color
      bg_color padding
    = paint frame [ Rectangle c1 c2 bg_color (-1);
                    Rectangle c1 c2 color 2;
                    PutText text (x, y) font_scale color thickness ]
    /\ c1 = (x - padding, y + padding)%Z
    /\ c2 = (x + fst (fst (getTextSize text font_scale thickness)) + padding,
             y - snd (fst (getTextSize text font_scale thickness))
               - snd (getTextSize text font_scale thickness) - padding)%Z.
Proof.
  unfold draw_label.
  destruct (getTextSize text font_scale thickness) as [[tw th] bl].
  do 2 eexists. split; [reflexivity | split; reflexivity].
Qed.

Lemma paint_paint (img : Image) (a b : list DrawOp) :
  paint (paint img a) b = paint img (a ++ b).
Proof. unfold paint. simpl. now rewrite <- app_assoc. Qed.

(** A label is its filled background, the border on the same two
    corners, and last the text at [pos]; the image keeps its shape.
    With a non-negative padding and text size the box spans the text
    width plus twice the padding and has [pos] inside it. *)
Theorem draw_label_box (frame : Image) (text : string) (x y : Z)
    (font_scale thickness : Z) (color bg_color : Color) (padding : Z) :
  let '((tw, th), bl) := getTextSize text font_scale thickness in
  exists c1 c2 : Z * Z,
    draw_label getTextSize frame text (x, y) font_scale thickness color
      bg_color padding
    = mkImage (img_h frame) (img_w frame)
        (img_ops frame
         ++ [ Rectangle c1 c2 bg_color (-1);
              Rectangle c1 c2 color 2;
              PutText text (x, y) font_scale color thickness ])
    /\ (fst c2 - fst c1 = tw + 2 * padding)%Z
    /\ (snd c1 - snd c2 = th + bl + 2 * padding)%Z
    /\ ((0 <= padding)%Z -> (0 <= tw)%Z -> (0 <= th)%Z -> (0 <= bl)%Z ->
        (fst c1 <= x <= fst c2)%Z /\ (snd c2 <= y <= snd c1)%Z).
Proof.
  unfold draw_label.
  destruct (getTextSize text font_scale thickness) as [[tw th] bl].
  do 2 eexists. split; [reflexivity |]. cbn [fst snd].
  split; [lia | split; [lia | intros; lia]].
Qed.

Lemma texts_app (a b : list DrawOp) : texts (a ++ b) = texts a ++ texts b.
Proof.
  induction a as [| op a IH]; [reflexivity |].
  destruct op; simpl; now rewrite IH.
Qed.

(** What a shown frame carries.  Without landmarks only the FPS label
    and the reset button are painted: the repetition count is not on
    screen.  With an overlay the frame gets the bar, the repetitions
    label, the percentage label and then the same two labels; painting
    never raises, and for a percentage in [0, 100] the filled part of
    the bar ends between x = 30 and x = 570, inside the outline. *)
Theorem show_frame_labels (frame_resized : Image) (fps : Z) :
  (exists ops,
     show_frame getTextSize frame_resized None fps
     = Ret (paint frame_resized ops)
     /\ texts ops = ["FPS: " ++ py_str fps; "Reset Count (r)"]%string)
  /\ (forall ov : Overlay,
        exists (ops : list DrawOp) (f : Z),
          show_frame getTextSize frame_resized (Some ov) fps
          = Ret (paint frame_resized
                   (Rectangle (30, 560)%Z (570, 580)%Z secondary_color 2
                    :: Rectangle (30, 560)%Z (30 + f, 580)%Z secondary_color
                         (-1)
                    :: ops))
          /\ texts ops
             = [py_str (ov_reps ov) ++ " Reps"; py_str (ov_per_label ov) ++ "%";
                "FPS: " ++ py_str fps; "Reset Count (r)"]%string
          /\ (0 <= ov_per ov <= 100 -> (0 <= f <= 540)%Z)).
Proof.
  split.
  - unfold show_frame. cbn [bind].
    destruct (draw_label_paint frame_resized ("FPS: " ++ py_str fps) 660 40
                1 1 secondary_color primary_color 10) as (a1 & a2 & -> & _).
    match goal with
    | |- context [draw_label _ ?f ?t (?x, ?y) ?s ?th ?c ?bg ?p] =>
        destruct (draw_label_paint f t x y s th c bg p) as (b1 & b2 & -> & _)
    end.
    rewrite paint_paint. eexists. split; reflexivity.
  - intros ov. unfold show_frame, show_overlay, draw_progress_bar, filled_part.
    cbn [bind Z.eqb fst snd].
    repeat match goal with
           | |- context [draw_label _ ?f ?t (?x, ?y) ?s ?th ?c ?bg ?p] =>
               destruct (draw_label_paint f t x y s th c bg p)
                 as (? & ? & -> & _)
           end.
    rewrite !paint_paint. do 2 eexists.
    split; [reflexivity | split; [reflexivity |]].
    intros P. apply py_int_within.
    pose proof (bar_fill_range _ P) as B. lra.
Qed.

End Labels.

(** ** A curl, frame by frame *)

Lemma pixels_800 :
  py_int (0.75 * IZR 800) = 600%Z
  /\ py_int (0.5 * IZR 800) = 400%Z
  /\ py_int (0.25 * IZR 800) = 200%Z.
Proof.
  replace (0.75 * IZR 800) with (IZR 600) by lra.
  replace (0.5 * IZR 800) with (IZR 400) by lra.
  replace (0.25 * IZR 800) with (IZR 200) by lra.
  rewrite !py_int_IZR. auto.
Qed.

(** Shoulder, elbow and wrist of the two frames, in pixels. *)
Lemma arm_landmarks (wrist : NormalizedLandmark) :
  let l := positions 800 800 0 (arm_pose wrist) in
  List.length l = 17%nat
  /\ py_getitem l 12 = Ret (mkLandmark 12 600 400)
  /\ py_getitem l 14 = Ret (mkLandmark 14 400 400)
  /\ py_getitem l 16
     = Ret (mkLandmark 16 (py_int (nl_x wrist * IZR 800))
              (py_int (nl_y wrist * IZR 800))).
Proof.
  destruct pixels_800 as (P75 & P50 & _).
  intros l. split; [reflexivity |].
  split; [| split].
  - change 12%Z with (Z.of_nat 12). apply py_getitem_nth. unfold l.
    rewrite (positions_nth 800 800 _ 0 12 (mkNorm 0.75 0.5)) by reflexivity.
    simpl nl_x. simpl nl_y. now rewrite P75, P50.
  - change 14%Z with (Z.of_nat 14). apply py_getitem_nth. unfold l.
    rewrite (positions_nth 800 800 _ 0 14 (mkNorm 0.5 0.5)) by reflexivity.
    simpl nl_x. simpl nl_y. now rewrite P50.
  - change 16%Z with (Z.of_nat 16). apply py_getitem_nth. unfold l.
    now rewrite (positions_nth 800 800 _ 0 16 wrist) by reflexivity.
Qed.

(** The first frame shows an elbow angle of 315 degrees. *)
Lemma frame_up_angle (img : Image) (draw : bool) :
  returned (findAngle (mkDetector (frame_landmarks frame_up)) img 12 14 16
              draw) = Ret 315.
Proof.
  destruct (arm_landmarks (mkNorm 0.75 0.25)) as (_ & E1 & E2 & E3).
  destruct pixels_800 as (P75 & _ & P25).
  simpl nl_x in E3. simpl nl_y in E3. rewrite P75, P25 in E3.
  pose proof PI_RGT_0 as P.
  assert (D : atan2 (IZR 200 - IZR 400) (IZR 600 - IZR 400)
              - atan2 (IZR 400 - IZR 400) (IZR 600 - IZR 400)
              = - / 4 * PI).
  { replace (IZR 200 - IZR 400) with (-200) by lra.
    replace (IZR 600 - IZR 400) with 200 by lra.
    replace (IZR 400 - IZR 400) with 0 by lra.
    unfold atan2. destruct (Rlt_dec 0 200) as [_ | N]; [| lra].
    replace (-200 / 200) with (Ropp 1) by lra.
    replace (0 / 200) with 0 by lra.
    rewrite atan_opp, atan_1, atan_0. lra. }
  rewrite (findAngle_delta (mkDetector (frame_landmarks frame_up)) img draw
             (mkLandmark 12 600 400) (mkLandmark 14 400 400)
             (mkLandmark 16 600 200) 12 14 16 _ E1 E2 E3 D).
  rewrite degrees_PI. f_equal.
  destruct (Rlt_dec (- / 4 * 180) 0); lra.
Qed.

(** The second frame shows an elbow angle of 180 degrees. *)
Lemma frame_down_angle (img : Image) (draw : bool) :
  returned (findAngle (mkDetector (frame_landmarks frame_down)) img 12 14 16
              draw) = Ret 180.
Proof.
  destruct (arm_landmarks (mkNorm 0.25 0.5)) as (_ & E1 & E2 & E3).
  destruct pixels_800 as (_ & P50 & P25).
  simpl nl_x in E3. simpl nl_y in E3. rewrite P50, P25 in E3.
  pose proof PI_RGT_0 as P.
  assert (D : atan2 (IZR 400 - IZR 400) (IZR 200 - IZR 400)
              - atan2 (IZR 400 - IZR 400) (IZR 600 - IZR 400)
              = 1 * PI).
  { replace (IZR 200 - IZR 400) with (-200) by lra.
    replace (IZR 600 - IZR 400) with 200 by lra.
    replace (IZR 400 - IZR 400) with 0 by lra.
    unfold atan2.
    destruct (Rlt_dec 0 (-200)) as [N | _]; [lra |].
    destruct (Rlt_dec (-200) 0) as [_ | N]; [| lra].
    destruct (Rle_dec 0 0) as [_ | N]; [| lra].
    destruct (Rlt_dec 0 200) as [_ | N]; [| lra].
    replace (0 / -200) with 0 by (field; lra).
    replace (0 / 200) with 0 by lra.
    rewrite atan_0. lra. }
  rewrite (findAngle_delta (mkDetector (frame_landmarks frame_down)) img
             draw (mkLandmark 12 600 400) (mkLandmark 14 400 400)
             (mkLandmark 16 200 400) 12 14 16 _ E1 E2 E3 D).
  rewrite degrees_PI. f_equal.
  destruct (Rlt_dec (1 * 180) 0); lra.
Qed.

Lemma frame_up_length : (17 <= List.length (frame_landmarks frame_up))%nat.
Proof. apply Nat.eq_le_incl. symmetry. apply (arm_landmarks (mkNorm 0.75 0.25)). Qed.

Lemma frame_down_length : (17 <= List.length (frame_landmarks frame_down))%nat.
Proof. apply Nat.eq_le_incl. symmetry. apply (arm_landmarks (mkNorm 0.25 0.5)). Qed.

(** On the first frame the block counts the half repetition of the way
    up, on the second, from there, the half of the way down. *)
Lemma rep_block_thresholds_witness :
  (exists ov,
     rep_block (mkDetector (frame_landmarks frame_up)) (frame frame_up)
       (frame_landmarks frame_up) initial
     = Ret (set_rep initial (count initial + 0.5) CONTRACTING, Some ov))
  /\ (exists ov,
        rep_block (mkDetector (frame_landmarks frame_down)) (frame frame_down)
          (frame_landmarks frame_down) (set_rep initial 0.5 CONTRACTING)
        = Ret (set_rep initial (0.5 + 0.5) EXTENDING, Some ov)).
Proof.
  split.
  - destruct (rep_block_thresholds (mkDetector (frame_landmarks frame_up))
                (frame frame_up) initial frame_up_length)
      as (angle & st' & ov & F & B & Up & _).
    rewrite frame_up_angle in F. inversion F. subst angle.
    exists ov. rewrite <- Up; [exact B | lra | reflexivity].
  - destruct (rep_block_thresholds (mkDetector (frame_landmarks frame_down))
                (frame frame_down) (set_rep initial 0.5 CONTRACTING)
                frame_down_length)
      as (angle & st' & ov & F & B & _ & Down & _).
    rewrite frame_down_angle in F. inversion F. subst angle.
    exists ov. transitivity (Ret (st', Some ov)); [exact B |].
    rewrite Down; [reflexivity | lra | reflexivity].
Defined.

(** The overlay of the first frame: angle 315, so the label is not in
    the primary colour, and the bar is within its outline. *)
Lemma rep_block_overlay_range_witness :
  exists (st' : MainState) (ov : Overlay),
    rep_block (mkDetector (frame_landmarks frame_up)) (frame frame_up)
      (frame_landmarks frame_up) initial = Ret (st', Some ov)
    /\ (0 <= ov_filled_part ov <= 540)%Z
    /\ (0 <= ov_per_label ov <= 100)%Z
    /\ ov_angle ov = 315
    /\ ov_color ov <> primary_color.
Proof.
  destruct (rep_block_cases (mkDetector (frame_landmarks frame_up))
              (frame frame_up) initial) as (_ & _ & C).
  destruct (C frame_up_length) as (angle & F & _ & B).
  rewrite frame_up_angle in F. inversion F. subst angle.
  destruct (rep_block_overlay_range _ _ _ _ _ _ B) as (R1 & R2 & _ & _ & _ & Col).
  do 2 eexists. split; [exact B |].
  split; [exact R1 | split; [exact R2 | split; [reflexivity |]]].
  intros Q. apply Col in Q. simpl in Q. lra.
Defined.

(** A frame with landmarks, once the angle is known. *)
Lemma process_frame_run (inp : FrameInput) (st : MainState) (angle : R) :
  frame_landmarks inp <> [] ->
  returned (findAngle (mkDetector (frame_landmarks inp)) (frame inp) 12 14 16
              false) = Ret angle ->
  ctime inp <> ptime st ->
  exists st' ov fps,
    process_frame inp st = Ret (st', ov, fps)
    /\ same_rep st' (update (per_of_angle angle) st)
    /\ ptime st' = ctime inp.
Proof.
  unfold frame_landmarks, process_frame. intros N F T.
  destruct (pose_landmarks inp) as [lms |]; [| now contradiction N].
  cbn [findPosition snd] in *.
  rewrite rep_block_nonempty by exact N.
  destruct (findAngle _ (frame inp) 12 14 16 false) as [[a i] |];
    [| discriminate F].
  inversion F. subst a. cbn [bind fst].
  destruct (update_frame (per_of_angle angle) st) as [-> _].
  rewrite Req_bool_false by lra.
  do 3 eexists. split; [reflexivity | split; [split |]]; reflexivity.
Qed.

(** The two frames of the curl count one repetition. *)
Lemma curl_run :
  exists st : MainState,
    main [frame_up; frame_down] = Ret st
    /\ count st = 1 /\ dir st = EXTENDING.
Proof.
  destruct (process_frame_run frame_up initial 315)
    as (st1 & ov1 & fps1 & E1 & [C1 D1] & T1).
  { intros Q. pose proof frame_up_length as L. rewrite Q in L. simpl in L. lia. }
  { apply frame_up_angle. }
  { simpl. lra. }
  rewrite per_of_angle_above in C1, D1 by lra.
  rewrite update_up in C1, D1 by reflexivity. simpl in C1, D1.
  destruct (process_frame_run frame_down st1 180)
    as (st2 & ov2 & fps2 & E2 & [C2 D2] & T2).
  { intros Q. pose proof frame_down_length as L. rewrite Q in L. simpl in L. lia. }
  { apply frame_down_angle. }
  { rewrite T1. simpl. lra. }
  rewrite per_of_angle_below in C2, D2 by lra.
  rewrite update_down in C2, D2 by exact D1. simpl in C2, D2.
  exists st2. unfold main. simpl main_loop. unfold loop_body.
  change (ret frame_up) with true. change (ret frame_down) with true.
  rewrite E1. cbn [bind fst snd handle_keys].
  change (key_is (key1 frame_up) ord_r) with false.
  change (key_is (key2 frame_up) ord_q) with false.
  cbn [negb fst snd bind].
  rewrite E2. cbn [bind fst snd handle_keys].
  change (key_is (key1 frame_down) ord_r) with false.
  change (key_is (key2 frame_down) ord_q) with false.
  cbn [negb fst snd bind].
  split; [reflexivity | split; [rewrite C2, C1; lra | exact D2]].
Qed.

(** Two frames, one repetition: the bound of half a repetition per frame
    is met, the count is two halves and the label reads 1. *)
Lemma main_counts_witness :
  exists st : MainState,
    main [frame_up; frame_down] = Ret st
    /\ count st = 1
    /\ 0 <= count st <= INR (List.length [frame_up; frame_down]) * 0.5
    /\ exists n : nat,
         count st = INR n * 0.5
         /\ dir st = Z.of_nat (n mod 2)
         /\ py_int (count st) = Z.of_nat (n / 2).
Proof.
  destruct curl_run as (st & E & C & _).
  exists st. split; [exact E | split; [exact C |]].
  apply (main_counts [frame_up; frame_down] st E).
Defined.
